(** * mangonel: the RV32I instruction codec and the register file

    A shallow embedding of [utils/constants.py], [utils/isa.py] and
    [core/regfile.py], followed by the properties of the codec and of the
    register file.

    Python integers are unbounded, so every integer is a [Z]; [&], [|], [~],
    [<<] and [>>] are [Z.land], [Z.lor], [Z.lnot], [Z.shiftl] and
    [Z.shiftr], which agree with Python on negative numbers as well
    (two's complement with an infinite sign).  A shift by a negative count
    raises [ValueError] in Python: shifts by the module's constants cannot
    raise and are written with [Z.shiftl]/[Z.shiftr] directly, the shifts of
    [sign_extend], whose count is an argument, go through [py_lshift]. *)

From Stdlib Require Import ZArith Lia Bool Btauto Ascii.
From stdpp Require Import gmap strings list pretty.

Local Open Scope Z_scope.

(** ** Exceptions *)

Inductive exn : Type :=
  | ValueError (msg : string)
  | IndexError (msg : string).

Inductive Result (A : Type) : Type :=
  | Ok (a : A)
  | Raise (e : exn).

Arguments Ok {A} a.
Arguments Raise {A} e.

Definition bind {A B : Type} (r : Result A) (k : A -> Result B) : Result B :=
  match r with
  | Ok a => k a
  | Raise e => Raise e
  end.

Notation "x <- r ;; k" := (bind r (fun x => k))
  (at level 100, r at next level, right associativity).

(** [a << n] on Python integers. *)
Definition py_lshift (a n : Z) : Result Z :=
  if n <? 0 then Raise (ValueError "negative shift count")
  else Ok (Z.shiftl a n).

(** A dict display [{k1: v1, k2: v2, ...}]: the items are inserted from left
    to right, so that of two items with equal keys the later one stays. *)
Definition dict_literal {K V : Type} `{Countable K}
    (items : list (K * V)) : gmap K V :=
  fold_left (fun d kv => <[kv.1 := kv.2]> d) items ∅.

(** [d.get(key, default)] *)
Definition dict_get {K V : Type} `{Countable K}
    (d : gmap K V) (key : K) (dflt : V) : V :=
  default dflt (d !! key).

(** ** utils/constants.py *)

Module Constants.

Definition XLEN : Z := 32.
Definition NUM_REGS : Z := 32.
Definition REG_WIDTH : Z := 32.
Definition INST_WIDTH : Z := 32.

(* Instruction opcodes *)
Definition OPCODE_R_TYPE : Z := 0x33.  (* 0b0110011 *)

Definition OPCODE_ADDI  : Z := 0x13.   (* 0b0010011 *)
Definition OPCODE_SLLI  : Z := 0x13.
Definition OPCODE_SLTI  : Z := 0x13.
Definition OPCODE_SLTIU : Z := 0x13.
Definition OPCODE_XORI  : Z := 0x13.
Definition OPCODE_SRLI  : Z := 0x13.
Definition OPCODE_SRAI  : Z := 0x13.
Definition OPCODE_ORI   : Z := 0x13.
Definition OPCODE_ANDI  : Z := 0x13.

Definition OPCODE_LOAD   : Z := 0x03.  (* 0b0000011 *)
Definition OPCODE_STORE  : Z := 0x23.  (* 0b0100011 *)
Definition OPCODE_BRANCH : Z := 0x63.  (* 0b1100011 *)
Definition OPCODE_JAL    : Z := 0x6F.  (* 0b1101111 *)
Definition OPCODE_JALR   : Z := 0x67.  (* 0b1100111 *)
Definition OPCODE_LUI    : Z := 0x37.  (* 0b0110111 *)
Definition OPCODE_AUIPC  : Z := 0x17.  (* 0b0010111 *)

(* Instruction masks and shifts *)
Definition OPCODE_MASK : Z := 0x7F.
Definition OPCODE_SHIFT : Z := 0.
Definition RD_MASK : Z := 0x1F.
Definition RD_SHIFT : Z := 7.
Definition FUNCT3_MASK : Z := 0x7.
Definition FUNCT3_SHIFT : Z := 12.
Definition RS1_MASK : Z := 0x1F.
Definition RS1_SHIFT : Z := 15.
Definition RS2_MASK : Z := 0x1F.
Definition RS2_SHIFT : Z := 20.
Definition FUNCT7_MASK : Z := 0x7F.
Definition FUNCT7_SHIFT : Z := 25.

Definition IMM_I_MASK : Z := 0xFFF.
Definition IMM_I_SHIFT : Z := 20.

Definition IMM_S_HI_MASK : Z := 0x7F.
Definition IMM_S_HI_SHIFT : Z := 25.
Definition IMM_S_LO_MASK : Z := 0x1F.
Definition IMM_S_LO_SHIFT : Z := 7.

Definition IMM_B_BIT11_MASK : Z := 0x1.
Definition IMM_B_BIT11_SHIFT : Z := 7.
Definition IMM_B_BITS10_5_MASK : Z := 0x3F.
Definition IMM_B_BITS10_5_SHIFT : Z := 25.
Definition IMM_B_BITS4_1_MASK : Z := 0xF.
Definition IMM_B_BITS4_1_SHIFT : Z := 8.
Definition IMM_B_BIT12_MASK : Z := 0x1.
Definition IMM_B_BIT12_SHIFT : Z := 31.

Definition IMM_U_MASK : Z := 0xFFFFF.
Definition IMM_U_SHIFT : Z := 12.

Definition IMM_J_BIT11_MASK : Z := 0x1.
Definition IMM_J_BIT11_SHIFT : Z := 20.
Definition IMM_J_BITS19_12_MASK : Z := 0xFF.
Definition IMM_J_BITS19_12_SHIFT : Z := 12.
Definition IMM_J_BITS10_1_MASK : Z := 0x3FF.
Definition IMM_J_BITS10_1_SHIFT : Z := 21.
Definition IMM_J_BIT20_MASK : Z := 0x1.
Definition IMM_J_BIT20_SHIFT : Z := 31.

(* Funct3 codes *)
Definition FUNCT3_ADD_SUB : Z := 0.  (* 0b000 *)
Definition FUNCT3_SLL     : Z := 1.  (* 0b001 *)
Definition FUNCT3_SLT     : Z := 2.  (* 0b010 *)
Definition FUNCT3_SLTU    : Z := 3.  (* 0b011 *)
Definition FUNCT3_XOR     : Z := 4.  (* 0b100 *)
Definition FUNCT3_SRL_SRA : Z := 5.  (* 0b101 *)
Definition FUNCT3_OR      : Z := 6.  (* 0b110 *)
Definition FUNCT3_AND     : Z := 7.  (* 0b111 *)

Definition FUNCT3_LB  : Z := 0.
Definition FUNCT3_LH  : Z := 1.
Definition FUNCT3_LW  : Z := 2.
Definition FUNCT3_LBU : Z := 4.
Definition FUNCT3_LHU : Z := 5.

Definition FUNCT3_SB : Z := 0.
Definition FUNCT3_SH : Z := 1.
Definition FUNCT3_SW : Z := 2.

Definition FUNCT3_BEQ  : Z := 0.
Definition FUNCT3_BNE  : Z := 1.
Definition FUNCT3_BLT  : Z := 4.
Definition FUNCT3_BGE  : Z := 5.
Definition FUNCT3_BLTU : Z := 6.
Definition FUNCT3_BGEU : Z := 7.

(* Funct7 codes *)
Definition FUNCT7_NORMAL : Z := 0.     (* 0b0000000 *)
Definition FUNCT7_ALT    : Z := 0x20.  (* 0b0100000 *)

(* Control signals *)
Definition CTRL_REG_WRITE_YES : Z := 1.
Definition CTRL_REG_WRITE_NO  : Z := 0.

(** [sign_extend(value, nbits)]: both shifts raise when their count is
    negative; [if value & sign_bit] tests for a non-zero integer. *)
Definition sign_extend (value nbits : Z) : Result Z :=
  sign_bit <- py_lshift 1 (nbits - 1) ;;
  top <- py_lshift 1 nbits ;;
  let mask := top - 1 in
  let value := Z.land value mask in
  if Z.land value sign_bit =? 0 then Ok value
  else Ok (Z.lor value (Z.lnot mask)).

End Constants.

(** ** utils/isa.py *)

Module Isa.
Import Constants.

(** *** Instruction classes *)

Module RType.
Record t : Type := mk
  { rd : Z; rs1 : Z; rs2 : Z; funct3 : Z; funct7 : Z; opcode : Z }.

Definition encode (self : t) : Z :=
  let instr := opcode self in
  let instr := Z.lor instr (Z.shiftl (Z.land (rd self) RD_MASK) RD_SHIFT) in
  let instr := Z.lor instr (Z.shiftl (Z.land (funct3 self) FUNCT3_MASK) FUNCT3_SHIFT) in
  let instr := Z.lor instr (Z.shiftl (Z.land (rs1 self) RS1_MASK) RS1_SHIFT) in
  let instr := Z.lor instr (Z.shiftl (Z.land (rs2 self) RS2_MASK) RS2_SHIFT) in
  let instr := Z.lor instr (Z.shiftl (Z.land (funct7 self) FUNCT7_MASK) FUNCT7_SHIFT) in
  Z.land instr 0xFFFFFFFF.
End RType.

Module IType.
Record t : Type := mk
  { rd : Z; rs1 : Z; imm : Z; funct3 : Z; opcode : Z }.

Definition encode (self : t) : Z :=
  let instr := opcode self in
  let instr := Z.lor instr (Z.shiftl (Z.land (rd self) RD_MASK) RD_SHIFT) in
  let instr := Z.lor instr (Z.shiftl (Z.land (funct3 self) FUNCT3_MASK) FUNCT3_SHIFT) in
  let instr := Z.lor instr (Z.shiftl (Z.land (rs1 self) RS1_MASK) RS1_SHIFT) in
  let instr := Z.lor instr (Z.shiftl (Z.land (imm self) IMM_I_MASK) IMM_I_SHIFT) in
  Z.land instr 0xFFFFFFFF.
End IType.

Module SType.
Record t : Type := mk
  { rs1 : Z; rs2 : Z; imm : Z; funct3 : Z; opcode : Z }.

Definition encode (self : t) : Z :=
  let instr := opcode self in
  let instr := Z.lor instr (Z.shiftl (Z.land (imm self) IMM_S_LO_MASK) IMM_S_LO_SHIFT) in
  let instr := Z.lor instr (Z.shiftl (Z.land (funct3 self) FUNCT3_MASK) FUNCT3_SHIFT) in
  let instr := Z.lor instr (Z.shiftl (Z.land (rs1 self) RS1_MASK) RS1_SHIFT) in
  let instr := Z.lor instr (Z.shiftl (Z.land (rs2 self) RS2_MASK) RS2_SHIFT) in
  let instr := Z.lor instr
    (Z.shiftl (Z.land (Z.shiftr (imm self) 5) IMM_S_HI_MASK) IMM_S_HI_SHIFT) in
  Z.land instr 0xFFFFFFFF.
End SType.

Module BType.
Record t : Type := mk
  { rs1 : Z; rs2 : Z; imm : Z; funct3 : Z; opcode : Z }.

Definition encode (self : t) : Z :=
  let instr := opcode self in
  let instr := Z.lor instr
    (Z.shiftl (Z.land (imm self) IMM_B_BIT11_MASK) IMM_B_BIT11_SHIFT) in
  let instr := Z.lor instr
    (Z.shiftl (Z.land (Z.shiftr (imm self) 1) IMM_B_BITS4_1_MASK) IMM_B_BITS4_1_SHIFT) in
  let instr := Z.lor instr (Z.shiftl (Z.land (funct3 self) FUNCT3_MASK) FUNCT3_SHIFT) in
  let instr := Z.lor instr (Z.shiftl (Z.land (rs1 self) RS1_MASK) RS1_SHIFT) in
  let instr := Z.lor instr (Z.shiftl (Z.land (rs2 self) RS2_MASK) RS2_SHIFT) in
  let instr := Z.lor instr
    (Z.shiftl (Z.land (Z.shiftr (imm self) 5) IMM_B_BITS10_5_MASK) IMM_B_BITS10_5_SHIFT) in
  let instr := Z.lor instr
    (Z.shiftl (Z.land (Z.shiftr (imm self) 11) IMM_B_BIT12_MASK) IMM_B_BIT12_SHIFT) in
  Z.land instr 0xFFFFFFFF.
End BType.

Module UType.
Record t : Type := mk { rd : Z; imm : Z; opcode : Z }.

Definition encode (self : t) : Z :=
  let instr := opcode self in
  let instr := Z.lor instr (Z.shiftl (Z.land (rd self) RD_MASK) RD_SHIFT) in
  let instr := Z.lor instr (Z.shiftl (Z.land (imm self) IMM_U_MASK) IMM_U_SHIFT) in
  Z.land instr 0xFFFFFFFF.
End UType.

Module JType.
Record t : Type := mk { rd : Z; imm : Z; opcode : Z }.

Definition encode (self : t) : Z :=
  let instr := opcode self in
  let instr := Z.lor instr (Z.shiftl (Z.land (rd self) RD_MASK) RD_SHIFT) in
  let instr := Z.lor instr
    (Z.shiftl (Z.land (imm self) IMM_J_BITS19_12_MASK) IMM_J_BITS19_12_SHIFT) in
  let instr := Z.lor instr
    (Z.shiftl (Z.land (Z.shiftr (imm self) 11) IMM_J_BIT11_MASK) IMM_J_BIT11_SHIFT) in
  let instr := Z.lor instr
    (Z.shiftl (Z.land (Z.shiftr (imm self) 1) IMM_J_BITS10_1_MASK) IMM_J_BITS10_1_SHIFT) in
  let instr := Z.lor instr
    (Z.shiftl (Z.land (Z.shiftr (imm self) 20) IMM_J_BIT20_MASK) IMM_J_BIT20_SHIFT) in
  Z.land instr 0xFFFFFFFF.
End JType.

(** The class hierarchy under [Instr]: one constructor per subclass, and
    [encode] dispatching on it. *)
Inductive Instr : Type :=
  | R (i : RType.t)
  | I (i : IType.t)
  | S (i : SType.t)
  | B (i : BType.t)
  | U (i : UType.t)
  | J (i : JType.t).

Definition encode (instr : Instr) : Z :=
  match instr with
  | R i => RType.encode i
  | I i => IType.encode i
  | S i => SType.encode i
  | B i => BType.encode i
  | U i => UType.encode i
  | J i => JType.encode i
  end.

(** *** Decoding helpers *)

Definition extract_opcode (instr : Z) : Z :=
  Z.land (Z.shiftr instr OPCODE_SHIFT) OPCODE_MASK.

Definition extract_rd (instr : Z) : Z :=
  Z.land (Z.shiftr instr RD_SHIFT) RD_MASK.

Definition extract_rs1 (instr : Z) : Z :=
  Z.land (Z.shiftr instr RS1_SHIFT) RS1_MASK.

Definition extract_rs2 (instr : Z) : Z :=
  Z.land (Z.shiftr instr RS2_SHIFT) RS2_MASK.

Definition extract_funct3 (instr : Z) : Z :=
  Z.land (Z.shiftr instr FUNCT3_SHIFT) FUNCT3_MASK.

Definition extract_funct7 (instr : Z) : Z :=
  Z.land (Z.shiftr instr FUNCT7_SHIFT) FUNCT7_MASK.

Definition extract_imm_i (instr : Z) : Result Z :=
  let imm := Z.land (Z.shiftr instr IMM_I_SHIFT) IMM_I_MASK in
  sign_extend imm 12.

Definition extract_imm_s (instr : Z) : Result Z :=
  let imm_lo := Z.land (Z.shiftr instr IMM_S_LO_SHIFT) IMM_S_LO_MASK in
  let imm_hi := Z.land (Z.shiftr instr IMM_S_HI_SHIFT) IMM_S_HI_MASK in
  let imm := Z.lor (Z.shiftl imm_hi 5) imm_lo in
  sign_extend imm 12.

Definition extract_imm_b (instr : Z) : Result Z :=
  let bit11 := Z.land (Z.shiftr instr IMM_B_BIT11_SHIFT) IMM_B_BIT11_MASK in
  let bits10_5 := Z.land (Z.shiftr instr IMM_B_BITS10_5_SHIFT) IMM_B_BITS10_5_MASK in
  let bits4_1 := Z.land (Z.shiftr instr IMM_B_BITS4_1_SHIFT) IMM_B_BITS4_1_MASK in
  let bit12 := Z.land (Z.shiftr instr IMM_B_BIT12_SHIFT) IMM_B_BIT12_MASK in
  let imm :=
    Z.lor (Z.lor (Z.lor (Z.shiftl bit12 12) (Z.shiftl bit11 11))
                 (Z.shiftl bits10_5 5))
          (Z.shiftl bits4_1 1) in
  sign_extend imm 13.

Definition extract_imm_u (instr : Z) : Z :=
  Z.land (Z.shiftr instr IMM_U_SHIFT) IMM_U_MASK.

Definition extract_imm_j (instr : Z) : Result Z :=
  let bits19_12 := Z.land (Z.shiftr instr IMM_J_BITS19_12_SHIFT) IMM_J_BITS19_12_MASK in
  let bit11 := Z.land (Z.shiftr instr IMM_J_BIT11_SHIFT) IMM_J_BIT11_MASK in
  let bits10_1 := Z.land (Z.shiftr instr IMM_J_BITS10_1_SHIFT) IMM_J_BITS10_1_MASK in
  let bit20 := Z.land (Z.shiftr instr IMM_J_BIT20_SHIFT) IMM_J_BIT20_MASK in
  let imm :=
    Z.lor (Z.lor (Z.lor (Z.shiftl bit20 20) (Z.shiftl bits19_12 12))
                 (Z.shiftl bit11 11))
          (Z.shiftl bits10_1 1) in
  sign_extend imm 21.

(** *** Decode instruction *)

Module Decoded.
Record t : Type := mk
  { opcode : Z; rd : Z; rs1 : Z; rs2 : Z; funct3 : Z; funct7 : Z;
    imm : Z; type : string; mnemonic : string }.

(** [Decoded.__init__] *)
Definition init : t :=
  {| opcode := 0; rd := 0; rs1 := 0; rs2 := 0; funct3 := 0; funct7 := 0;
     imm := 0; type := ""; mnemonic := "" |}.

(* Attribute assignments [decoded.f = v]. *)
Definition set_opcode (v : Z) (d : t) : t :=
  mk v (rd d) (rs1 d) (rs2 d) (funct3 d) (funct7 d) (imm d) (type d) (mnemonic d).
Definition set_rd (v : Z) (d : t) : t :=
  mk (opcode d) v (rs1 d) (rs2 d) (funct3 d) (funct7 d) (imm d) (type d) (mnemonic d).
Definition set_rs1 (v : Z) (d : t) : t :=
  mk (opcode d) (rd d) v (rs2 d) (funct3 d) (funct7 d) (imm d) (type d) (mnemonic d).
Definition set_rs2 (v : Z) (d : t) : t :=
  mk (opcode d) (rd d) (rs1 d) v (funct3 d) (funct7 d) (imm d) (type d) (mnemonic d).
Definition set_funct3 (v : Z) (d : t) : t :=
  mk (opcode d) (rd d) (rs1 d) (rs2 d) v (funct7 d) (imm d) (type d) (mnemonic d).
Definition set_funct7 (v : Z) (d : t) : t :=
  mk (opcode d) (rd d) (rs1 d) (rs2 d) (funct3 d) v (imm d) (type d) (mnemonic d).
Definition set_imm (v : Z) (d : t) : t :=
  mk (opcode d) (rd d) (rs1 d) (rs2 d) (funct3 d) (funct7 d) v (type d) (mnemonic d).
Definition set_type (v : string) (d : t) : t :=
  mk (opcode d) (rd d) (rs1 d) (rs2 d) (funct3 d) (funct7 d) (imm d) v (mnemonic d).
Definition set_mnemonic (v : string) (d : t) : t :=
  mk (opcode d) (rd d) (rs1 d) (rs2 d) (funct3 d) (funct7 d) (imm d) (type d) v.
End Decoded.

(** The dict display of [get_mnemonic], item by item in source order. *)
Definition mnemonic_items : list (Z * Z * Z * string) :=
  [ ((OPCODE_R_TYPE, FUNCT3_ADD_SUB, FUNCT7_NORMAL), "ADD");
    ((OPCODE_R_TYPE, FUNCT3_ADD_SUB, FUNCT7_ALT), "SUB");
    ((OPCODE_R_TYPE, FUNCT3_SLL, FUNCT7_NORMAL), "SLL");
    ((OPCODE_R_TYPE, FUNCT3_SLT, FUNCT7_NORMAL), "SLT");
    ((OPCODE_R_TYPE, FUNCT3_SLTU, FUNCT7_NORMAL), "SLTU");
    ((OPCODE_R_TYPE, FUNCT3_XOR, FUNCT7_NORMAL), "XOR");
    ((OPCODE_R_TYPE, FUNCT3_SRL_SRA, FUNCT7_NORMAL), "SRL");
    ((OPCODE_R_TYPE, FUNCT3_SRL_SRA, FUNCT7_ALT), "SRA");
    ((OPCODE_R_TYPE, FUNCT3_OR, FUNCT7_NORMAL), "OR");
    ((OPCODE_R_TYPE, FUNCT3_AND, FUNCT7_NORMAL), "AND");

    ((OPCODE_ADDI, FUNCT3_ADD_SUB, 0), "ADDI");
    ((OPCODE_SLLI, FUNCT3_SLL, 0), "SLLI");
    ((OPCODE_SLTI, FUNCT3_SLT, 0), "SLTI");
    ((OPCODE_SLTIU, FUNCT3_SLTU, 0), "SLTIU");
    ((OPCODE_XORI, FUNCT3_XOR, 0), "XORI");
    ((OPCODE_SRLI, FUNCT3_SRL_SRA, 0), "SRLI");
    ((OPCODE_SRAI, FUNCT3_SRL_SRA, 0), "SRAI");
    ((OPCODE_ORI, FUNCT3_OR, 0), "ORI");
    ((OPCODE_ANDI, FUNCT3_AND, 0), "ANDI");

    ((OPCODE_LOAD, FUNCT3_LB, 0), "LB");
    ((OPCODE_LOAD, FUNCT3_LH, 0), "LH");
    ((OPCODE_LOAD, FUNCT3_LW, 0), "LW");
    ((OPCODE_LOAD, FUNCT3_LBU, 0), "LBU");
    ((OPCODE_LOAD, FUNCT3_LHU, 0), "LHU");

    ((OPCODE_STORE, FUNCT3_SB, 0), "SB");
    ((OPCODE_STORE, FUNCT3_SH, 0), "SH");
    ((OPCODE_STORE, FUNCT3_SW, 0), "SW");

    ((OPCODE_BRANCH, FUNCT3_BEQ, 0), "BEQ");
    ((OPCODE_BRANCH, FUNCT3_BNE, 0), "BNE");
    ((OPCODE_BRANCH, FUNCT3_BLT, 0), "BLT");
    ((OPCODE_BRANCH, FUNCT3_BGE, 0), "BGE");
    ((OPCODE_BRANCH, FUNCT3_BLTU, 0), "BLTU");
    ((OPCODE_BRANCH, FUNCT3_BGEU, 0), "BGEU");

    ((OPCODE_JAL, 0, 0), "JAL");
    ((OPCODE_JALR, FUNCT3_ADD_SUB, 0), "JALR");

    ((OPCODE_LUI, 0, 0), "LUI");
    ((OPCODE_AUIPC, 0, 0), "AUIPC") ].

Definition mnemonic_map : gmap (Z * Z * Z) string :=
  dict_literal mnemonic_items.

Definition get_mnemonic (decoded : Decoded.t) : string :=
  let opcode := Decoded.opcode decoded in
  let funct3 := Decoded.funct3 decoded in
  let funct7 :=
    if String.eqb (Decoded.type decoded) "R" then Decoded.funct7 decoded else 0 in
  let key := (opcode, funct3, funct7) in
  dict_get mnemonic_map key "UNKNOWN".

(** The opcodes of the tuple tested in the I-type branch of [decode_instr]. *)
Definition i_type_opcodes : list Z :=
  [ OPCODE_ADDI; OPCODE_ANDI; OPCODE_ORI; OPCODE_XORI; OPCODE_SLTI;
    OPCODE_SLTIU; OPCODE_SLLI; OPCODE_SRLI; OPCODE_SRAI; OPCODE_JALR;
    OPCODE_LOAD ].

Definition u_type_opcodes : list Z := [ OPCODE_LUI; OPCODE_AUIPC ].

(** [x in (a, b, ...)] *)
Definition py_in (x : Z) (tuple : list Z) : bool := existsb (Z.eqb x) tuple.

Definition decode_instr (instr : Z) : Result Decoded.t :=
  let decoded := Decoded.init in
  let decoded := Decoded.set_opcode (extract_opcode instr) decoded in
  let decoded := Decoded.set_rd (extract_rd instr) decoded in
  let decoded := Decoded.set_rs1 (extract_rs1 instr) decoded in
  let decoded := Decoded.set_rs2 (extract_rs2 instr) decoded in
  let decoded := Decoded.set_funct3 (extract_funct3 instr) decoded in
  let decoded := Decoded.set_funct7 (extract_funct7 instr) decoded in
  decoded <-
    (if Decoded.opcode decoded =? OPCODE_R_TYPE then
       Ok (Decoded.set_type "R" decoded)
     else if py_in (Decoded.opcode decoded) i_type_opcodes then
       let decoded := Decoded.set_type "I" decoded in
       imm <- extract_imm_i instr ;; Ok (Decoded.set_imm imm decoded)
     else if Decoded.opcode decoded =? OPCODE_STORE then
       let decoded := Decoded.set_type "S" decoded in
       imm <- extract_imm_s instr ;; Ok (Decoded.set_imm imm decoded)
     else if Decoded.opcode decoded =? OPCODE_BRANCH then
       let decoded := Decoded.set_type "B" decoded in
       imm <- extract_imm_b instr ;; Ok (Decoded.set_imm imm decoded)
     else if py_in (Decoded.opcode decoded) u_type_opcodes then
       let decoded := Decoded.set_type "U" decoded in
       Ok (Decoded.set_imm (extract_imm_u instr) decoded)
     else if Decoded.opcode decoded =? OPCODE_JAL then
       let decoded := Decoded.set_type "J" decoded in
       imm <- extract_imm_j instr ;; Ok (Decoded.set_imm imm decoded)
     else Ok decoded) ;;
  Ok (Decoded.set_mnemonic (get_mnemonic decoded) decoded).

End Isa.

(** *** Printing a decoded record *)

Module PyFormat.

(** The binary digits of a positive integer, most significant first. *)
Fixpoint bin_digits (p : positive) : string :=
  match p with
  | xH => "1"
  | xO p' => bin_digits p' +:+ "0"
  | xI p' => bin_digits p' +:+ "1"
  end.

Fixpoint zeros (n : nat) : string :=
  match n with
  | O => ""
  | S n' => String "0"%char (zeros n')
  end.

(** [f"{n:07b}"]: binary digits, zero-padded after the sign to a total
    width of at least 7. *)
Definition format_07b (n : Z) : string :=
  let sign := if n <? 0 then "-" else "" in
  let digits :=
    match n with
    | Z0 => "0"
    | Zpos p => bin_digits p
    | Zneg p => bin_digits p
    end in
  sign +:+ zeros (7 - String.length sign - String.length digits) +:+ digits.

End PyFormat.

(** [Decoded.__str__] *)
Definition Decoded__str__ (self : Isa.Decoded.t) : string :=
  Isa.Decoded.mnemonic self +:+ " (opcode="
    +:+ PyFormat.format_07b (Isa.Decoded.opcode self) +:+ ")".

(** ** core/regfile.py *)

(** What the register file uses of PyRTL.  A wire carries a non-negative
    integer that fits its bit width; the simulation takes the value of every
    input port at each step and refuses one that does not fit its port.

    The model below describes a cycle on port values that fit their ports
    ([Regfile.in_width]): it compares and stores them as they are.  A value
    outside its port's range never reaches the design as it is (the
    simulator wraps it or refuses it), so a property that depends on what
    the ports carry is stated for values in width. *)
Module Pyrtl.

(** [pyrtl.Register(bitwidth, name=...)], with the value the simulation
    holds for it; a register starts at 0. *)
Record Reg : Type := mkReg { bitwidth : Z; name : string; value : Z }.

(** The register after a clock edge that loads [v] into it. *)
Definition load (v : Z) (r : Reg) : Reg := mkReg (bitwidth r) (name r) v.

(** [pyrtl.mux(index, *mux_ins)]: the input selected by [index].  PyRTL
    builds it only when there are as many inputs as [index] has values, so
    the selection is always in range.  An [index] that fits the wire's
    width is what the model stands for; on any other the value below (the
    first input for a negative index, 0 past the last) is the model's own
    and not the simulator's. *)
Definition mux (index : Z) (mux_ins : list Z) : Z :=
  default 0 (mux_ins !! Z.to_nat index).

(** [pyrtl.select(sel, truecase, falsecase)] *)
Definition select (sel : bool) (truecase falsecase : Z) : Z :=
  if sel then truecase else falsecase.

(** [pyrtl.Const(val, bitwidth)] *)
Definition Const (val bitwidth : Z) : Z := val.

End Pyrtl.

Module Regfile.
Import Constants.

Record RegFile : Type := mkRegFile
  { bitwidth : Z; num_regs : Z; registers : list Pyrtl.Reg }.

(** [RegFile.__init__]: registers [x0], [x1], ... *)
Definition init (bitwidth num_regs : Z) : RegFile :=
  {| bitwidth := bitwidth;
     num_regs := num_regs;
     registers :=
       (fun i => Pyrtl.mkReg bitwidth ("x" +:+ pretty i) 0) <$> seqZ 0 num_regs |}.

(** The values on the input ports during one cycle, and on the output
    ports. *)
Record Inputs : Type := mkInputs
  { rs1_addr : Z; rs2_addr : Z; rd_addr : Z; rd_data : Z; rd_we : Z }.

Record Outputs : Type := mkOutputs { rs1_data : Z; rs2_data : Z }.

Definition read_register (self : RegFile) (addr : Z) : Z :=
  let read_value := Pyrtl.mux addr (Pyrtl.value <$> registers self) in
  Pyrtl.select (addr =? 0)
    (Pyrtl.Const 0 (bitwidth self)) read_value.

(** [write_register] gives every register [i] of [range(num_regs)] its own
    conditional assignment; a register whose condition is false keeps its
    value.  The result is the state of the registers after the edge.  The
    port values are compared and stored as they are, which is what the
    hardware does with values that fit their ports ([in_width] below). *)
Definition write_register (self : RegFile) (inp : Inputs) : list Pyrtl.Reg :=
  imap (fun (i : nat) (r : Pyrtl.Reg) =>
          if (rd_we inp =? CTRL_REG_WRITE_YES)
             && (rd_addr inp =? Z.of_nat i)
             && negb (Z.of_nat i =? 0)
          then Pyrtl.load (rd_data inp) r
          else r)
       (registers self).

(** The wiring of [create_ports], over one cycle: the outputs are read from
    the current state, the registers change at the edge that ends it. *)
Definition outputs (self : RegFile) (inp : Inputs) : Outputs :=
  {| rs1_data := read_register self (rs1_addr inp);
     rs2_data := read_register self (rs2_addr inp) |}.

Definition clock_edge (self : RegFile) (inp : Inputs) : RegFile :=
  {| bitwidth := bitwidth self;
     num_regs := num_regs self;
     registers := write_register self inp |}.

(** One simulated cycle on port values that fit their ports: what the
    output ports show during it, and the state after its edge.  A cycle
    whose values do not fit is not one the simulator runs as given. *)
Definition step (self : RegFile) (inp : Inputs) : Outputs * RegFile :=
  (outputs self inp, clock_edge self inp).

(** The state after a sequence of cycles. *)
Definition run (self : RegFile) (inps : list Inputs) : RegFile :=
  foldl clock_edge self inps.

Definition get_register (self : RegFile) (index : Z) : Result Pyrtl.Reg :=
  if (index <? 0) || (index >=? num_regs self) then
    Raise (ValueError ("Register index " +:+ pretty index
                       +:+ " out of range [0, "
                       +:+ pretty (num_regs self - 1) +:+ "]"))
  else
    match registers self !! Z.to_nat index with
    | Some r => Ok r
    | None => Raise (IndexError "list index out of range")
    end.

(** The register file is in a state that [RegFile()] and clock edges
    produce: one register per index. *)
Definition well_formed (self : RegFile) : Prop :=
  num_regs self = NUM_REGS /\ Z.of_nat (length (registers self)) = num_regs self.

(** The port values of a cycle fit the ports [create_ports] declares: 5 bits
    for the three addresses, [bitwidth] bits for the write data, 1 bit for
    the write enable. *)
Definition in_width (self : RegFile) (inp : Inputs) : Prop :=
  0 <= rs1_addr inp < 2 ^ 5
  /\ 0 <= rs2_addr inp < 2 ^ 5
  /\ 0 <= rd_addr inp < 2 ^ 5
  /\ 0 <= rd_data inp < 2 ^ bitwidth self
  /\ 0 <= rd_we inp < 2 ^ 1.

End Regfile.

(** The write history of one register. *)
Module RegfileSpec.
Import Constants Regfile.

(** The cycle asserts the write enable and addresses register [a]. *)
Definition writes_to (a : Z) (inp : Inputs) : bool :=
  (rd_we inp =? CTRL_REG_WRITE_YES) && (rd_addr inp =? a).

(** The data of the last cycle of [inps] that writes register [a], if one
    does. *)
Fixpoint last_write (a : Z) (inps : list Inputs) : option Z :=
  match inps with
  | [] => None
  | inp :: rest =>
      match last_write a rest with
      | Some v => Some v
      | None => if writes_to a inp then Some (rd_data inp) else None
      end
  end.

End RegfileSpec.

(** ** Vocabulary of the properties *)

Module CodecSpec.
Import Constants Isa.

(** The opcodes on which [decode_instr] dispatches. *)
Definition recognized_opcodes : list Z :=
  OPCODE_R_TYPE :: i_type_opcodes
    ++ [OPCODE_STORE; OPCODE_BRANCH] ++ u_type_opcodes ++ [OPCODE_JAL].

Definition opcode_of (instr : Instr) : Z :=
  match instr with
  | R i => RType.opcode i
  | I i => IType.opcode i
  | S i => SType.opcode i
  | B i => BType.opcode i
  | U i => UType.opcode i
  | J i => JType.opcode i
  end.

(** Every field but the opcode reduced modulo 2 to its declared width:
    5 bits for a register index, 3 for [funct3], 7 for [funct7], and for
    the immediate 12 (I, S), 13 (B), 20 (U) and 21 (J) bits. *)
Definition reduce_fields (instr : Instr) : Instr :=
  match instr with
  | R (RType.mk rd rs1 rs2 funct3 funct7 opcode) =>
      R (RType.mk (rd mod 2 ^ 5) (rs1 mod 2 ^ 5) (rs2 mod 2 ^ 5)
                  (funct3 mod 2 ^ 3) (funct7 mod 2 ^ 7) opcode)
  | I (IType.mk rd rs1 imm funct3 opcode) =>
      I (IType.mk (rd mod 2 ^ 5) (rs1 mod 2 ^ 5) (imm mod 2 ^ 12)
                  (funct3 mod 2 ^ 3) opcode)
  | S (SType.mk rs1 rs2 imm funct3 opcode) =>
      S (SType.mk (rs1 mod 2 ^ 5) (rs2 mod 2 ^ 5) (imm mod 2 ^ 12)
                  (funct3 mod 2 ^ 3) opcode)
  | B (BType.mk rs1 rs2 imm funct3 opcode) =>
      B (BType.mk (rs1 mod 2 ^ 5) (rs2 mod 2 ^ 5) (imm mod 2 ^ 13)
                  (funct3 mod 2 ^ 3) opcode)
  | U (UType.mk rd imm opcode) =>
      U (UType.mk (rd mod 2 ^ 5) (imm mod 2 ^ 20) opcode)
  | J (JType.mk rd imm opcode) =>
      J (JType.mk (rd mod 2 ^ 5) (imm mod 2 ^ 21) opcode)
  end.

(** The instruction record a decoded record describes, by its type tag. *)
Definition instr_of_decoded (d : Decoded.t) : option Instr :=
  let ty := Decoded.type d in
  if String.eqb ty "R" then
    Some (R (RType.mk (Decoded.rd d) (Decoded.rs1 d) (Decoded.rs2 d)
                      (Decoded.funct3 d) (Decoded.funct7 d) (Decoded.opcode d)))
  else if String.eqb ty "I" then
    Some (I (IType.mk (Decoded.rd d) (Decoded.rs1 d) (Decoded.imm d)
                      (Decoded.funct3 d) (Decoded.opcode d)))
  else if String.eqb ty "S" then
    Some (S (SType.mk (Decoded.rs1 d) (Decoded.rs2 d) (Decoded.imm d)
                      (Decoded.funct3 d) (Decoded.opcode d)))
  else if String.eqb ty "B" then
    Some (B (BType.mk (Decoded.rs1 d) (Decoded.rs2 d) (Decoded.imm d)
                      (Decoded.funct3 d) (Decoded.opcode d)))
  else if String.eqb ty "U" then
    Some (U (UType.mk (Decoded.rd d) (Decoded.imm d) (Decoded.opcode d)))
  else if String.eqb ty "J" then
    Some (J (JType.mk (Decoded.rd d) (Decoded.imm d) (Decoded.opcode d)))
  else None.

(** The number a string of binary digits denotes. *)
Fixpoint bin_value_from (acc : Z) (s : string) : Z :=
  match s with
  | EmptyString => acc
  | String c s' =>
      bin_value_from (2 * acc + (if Ascii.eqb c "1"%char then 1 else 0)) s'
  end.

Definition bin_value (s : string) : Z := bin_value_from 0 s.

(** A string of binary digits only. *)
Fixpoint all_binary (s : string) : bool :=
  match s with
  | EmptyString => true
  | String c s' => (Ascii.eqb c "0"%char || Ascii.eqb c "1"%char) && all_binary s'
  end.

(** The patterns the immediate extractors assemble before they sign-extend
    them. *)
Definition imm_i_raw (instr : Z) : Z :=
  Z.land (Z.shiftr instr IMM_I_SHIFT) IMM_I_MASK.

Definition imm_s_raw (instr : Z) : Z :=
  Z.lor (Z.shiftl (Z.land (Z.shiftr instr IMM_S_HI_SHIFT) IMM_S_HI_MASK) 5)
        (Z.land (Z.shiftr instr IMM_S_LO_SHIFT) IMM_S_LO_MASK).

Definition imm_b_raw (instr : Z) : Z :=
  Z.lor
    (Z.lor
       (Z.lor
          (Z.shiftl (Z.land (Z.shiftr instr IMM_B_BIT12_SHIFT) IMM_B_BIT12_MASK) 12)
          (Z.shiftl (Z.land (Z.shiftr instr IMM_B_BIT11_SHIFT) IMM_B_BIT11_MASK) 11))
       (Z.shiftl (Z.land (Z.shiftr instr IMM_B_BITS10_5_SHIFT) IMM_B_BITS10_5_MASK) 5))
    (Z.shiftl (Z.land (Z.shiftr instr IMM_B_BITS4_1_SHIFT) IMM_B_BITS4_1_MASK) 1).

Definition imm_j_raw (instr : Z) : Z :=
  Z.lor
    (Z.lor
       (Z.lor
          (Z.shiftl (Z.land (Z.shiftr instr IMM_J_BIT20_SHIFT) IMM_J_BIT20_MASK) 20)
          (Z.shiftl (Z.land (Z.shiftr instr IMM_J_BITS19_12_SHIFT) IMM_J_BITS19_12_MASK) 12))
       (Z.shiftl (Z.land (Z.shiftr instr IMM_J_BIT11_SHIFT) IMM_J_BIT11_MASK) 11))
    (Z.shiftl (Z.land (Z.shiftr instr IMM_J_BITS10_1_SHIFT) IMM_J_BITS10_1_MASK) 1).

End CodecSpec.

(** * Properties of the register file *)

Module RegfileProofs.
Import Constants Regfile.

Section Reads.
Variable self : RegFile.

Lemma read_register_zero : read_register self 0 = 0.
Proof. reflexivity. Qed.

Lemma read_register_cell (a : Z) (r : Pyrtl.Reg) :
  0 <= a -> a <> 0 ->
  registers self !! Z.to_nat a = Some r ->
  read_register self a = Pyrtl.value r.
Proof.
  intros Hpos Hnz Hr. unfold read_register, Pyrtl.select, Pyrtl.mux.
  destruct (Z.eqb_spec a 0) as [->|_]; [lia|].
  by rewrite list_lookup_fmap, Hr.
Qed.

Lemma well_formed_lookup (a : Z) :
  well_formed self -> 0 <= a < NUM_REGS ->
  exists r, registers self !! Z.to_nat a = Some r.
Proof.
  intros [Hn Hlen] Ha. apply lookup_lt_is_Some_2. lia.
Qed.
End Reads.

Section Edge.
Variables (self : RegFile) (inp : Inputs).

Lemma write_register_lookup (i : nat) :
  write_register self inp !! i =
    (fun r =>
       if (rd_we inp =? CTRL_REG_WRITE_YES) && (rd_addr inp =? Z.of_nat i)
          && negb (Z.of_nat i =? 0)
       then Pyrtl.load (rd_data inp) r else r) <$> registers self !! i.
Proof. unfold write_register. by rewrite list_lookup_imap. Qed.

Lemma length_write_register :
  length (write_register self inp) = length (registers self).
Proof. apply length_imap. Qed.

Lemma well_formed_clock_edge :
  well_formed self -> well_formed (clock_edge self inp).
Proof.
  intros [Hn Hlen]. split; simpl; [done|]. by rewrite length_write_register.
Qed.

(** An edge at which no register's condition holds changes nothing. *)
Lemma write_register_idle :
  rd_we inp <> CTRL_REG_WRITE_YES \/ rd_addr inp = 0 ->
  write_register self inp = registers self.
Proof.
  intros Hidle. apply list_eq. intros i.
  rewrite write_register_lookup.
  destruct (registers self !! i) as [r|]; [simpl|done].
  destruct (Z.eqb_spec (rd_we inp) CTRL_REG_WRITE_YES) as [Hwe|_]; [|done].
  destruct Hidle as [?|Hz]; [done|]. rewrite Hz.
  by destruct (Z.eqb_spec 0 (Z.of_nat i)) as [<-|_].
Qed.

(** A register other than the addressed one keeps its value. *)
Lemma read_register_clock_edge_other (a : Z) :
  0 <= a ->
  rd_we inp <> CTRL_REG_WRITE_YES \/ rd_addr inp <> a ->
  read_register (clock_edge self inp) a = read_register self a.
Proof.
  intros Ha Hother. unfold read_register, Pyrtl.select, Pyrtl.mux. simpl.
  destruct (a =? 0); [done|].
  rewrite !list_lookup_fmap, write_register_lookup.
  destruct (registers self !! Z.to_nat a) as [r|]; [simpl|done].
  destruct (Z.eqb_spec (rd_we inp) CTRL_REG_WRITE_YES) as [Hwe|_]; [|done].
  destruct Hother as [?|Hne]; [done|].
  destruct (Z.eqb_spec (rd_addr inp) (Z.of_nat (Z.to_nat a))) as [Heq|_]; [|done].
  lia.
Qed.

(** The addressed register holds the written value after the edge. *)
Lemma read_register_clock_edge_written (a : Z) :
  well_formed self -> 0 <= a < NUM_REGS -> a <> 0 ->
  rd_we inp = CTRL_REG_WRITE_YES -> rd_addr inp = a ->
  read_register (clock_edge self inp) a = rd_data inp.
Proof.
  intros Hwf Ha Hnz Hwe Haddr.
  destruct (well_formed_lookup self a Hwf Ha) as [r Hr].
  rewrite (read_register_cell _ a (Pyrtl.load (rd_data inp) r)); [done|lia|done|].
  simpl. rewrite write_register_lookup, Hr. simpl.
  rewrite Hwe, Haddr, Z2Nat.id by lia.
  rewrite !Z.eqb_refl. by destruct (Z.eqb_spec a 0).
Qed.
End Edge.

Lemma clock_edge_idle (self : RegFile) (inp : Inputs) :
  rd_we inp <> CTRL_REG_WRITE_YES \/ rd_addr inp = 0 ->
  clock_edge self inp = self.
Proof.
  intros Hidle. unfold clock_edge. rewrite write_register_idle by done.
  by destruct self.
Qed.

Lemma well_formed_init : well_formed (init REG_WIDTH NUM_REGS).
Proof. split; reflexivity. Qed.

Lemma well_formed_run (self : RegFile) (inps : list Inputs) :
  well_formed self -> well_formed (run self inps).
Proof.
  revert self. induction inps as [|inp inps IH]; intros self Hwf; [done|].
  apply IH. by apply well_formed_clock_edge.
Qed.

(** Cycles that do not write register [a] leave its value in place. *)
Lemma read_register_run_other (self : RegFile) (inps : list Inputs) (a : Z) :
  0 <= a ->
  Forall (fun inp => rd_we inp <> CTRL_REG_WRITE_YES \/ rd_addr inp <> a) inps ->
  read_register (run self inps) a = read_register self a.
Proof.
  intros Ha. revert self.
  induction inps as [|inp inps IH]; intros self Hall; [done|].
  inversion Hall as [|? ? Hinp Hrest]; subst. simpl.
  change (foldl clock_edge (clock_edge self inp) inps)
    with (run (clock_edge self inp) inps).
  rewrite IH by done. by apply read_register_clock_edge_other.
Qed.

(** C4: a write to address 0 with the enable asserted is accepted (the
    step is a total function) and leaves the state as it was, so that no
    later read on either port can tell it from no write; and in every later
    cycle a read of address 0 returns 0 on both ports. *)
Theorem zero_register_invariant
    (self : RegFile) (v a1 a2 : Z) (later : list Inputs)
    (r1 r2 wa wd we : Z) :
  let after := (step self (mkInputs a1 a2 0 v CTRL_REG_WRITE_YES)).2 in
  rs1_data (step (run after later) (mkInputs 0 r2 wa wd we)).1 = 0
  /\ rs2_data (step (run after later) (mkInputs r1 0 wa wd we)).1 = 0
  /\ after = self
  /\ (step (run after later) (mkInputs r1 r2 wa wd we)).1
     = (step (run self later) (mkInputs r1 r2 wa wd we)).1.
Proof.
  intros after.
  assert (after = self) as Hsame.
  { subst after. simpl. apply clock_edge_idle. by right. }
  repeat split; [done| by rewrite Hsame].
Qed.

(** C5: for an address [a <> 0] of the 32 registers and port values that fit
    their ports, a read of [a] in the cycle that writes [v] to [a] returns
    the value stored before, on both ports; after the edge, and after any
    further cycles none of which writes [a], a read of [a] returns [v]
    (whatever the write port carries in the cycle of that read); and an
    edge with the write enable not asserted changes no register. *)
Theorem write_then_read_ordering
    (self : RegFile) (a v : Z) (later : list Inputs)
    (r1 r2 we wa wd wwe : Z) :
  well_formed self -> 0 <= a < NUM_REGS -> a <> 0 ->
  0 <= v < 2 ^ bitwidth self ->
  Forall (in_width self) later ->
  Forall (fun inp => rd_we inp <> CTRL_REG_WRITE_YES \/ rd_addr inp <> a) later ->
  in_width self (mkInputs r1 r2 wa wd wwe) ->
  0 <= we < 2 ^ 1 -> we <> CTRL_REG_WRITE_YES ->
  let w := mkInputs a a a v CTRL_REG_WRITE_YES in
  (exists r, registers self !! Z.to_nat a = Some r
     /\ rs1_data (step self w).1 = Pyrtl.value r
     /\ rs2_data (step self w).1 = Pyrtl.value r)
  /\ rs1_data (step (run (step self w).2 later) (mkInputs a r2 wa wd wwe)).1 = v
  /\ rs2_data (step (run (step self w).2 later) (mkInputs r1 a wa wd wwe)).1 = v
  /\ (step self (mkInputs r1 r2 a v we)).2 = self.
Proof.
  intros Hwf Ha Hnz _ _ Hlater _ _ Hwe w.
  destruct (well_formed_lookup self a Hwf Ha) as [r Hr].
  assert (read_register (run (step self w).2 later) a = v) as Hv.
  { rewrite read_register_run_other by (done || lia).
    simpl. by rewrite read_register_clock_edge_written. }
  repeat split.
  - exists r. simpl. rewrite (read_register_cell self a r) by (done || lia). done.
  - exact Hv.
  - exact Hv.
  - simpl. apply clock_edge_idle. by left.
Qed.

Lemma write_then_read_ordering_witness :
  (exists r, registers (init REG_WIDTH NUM_REGS) !! Z.to_nat 5 = Some r
     /\ rs1_data (step (init REG_WIDTH NUM_REGS)
                    (mkInputs 5 5 5 42 CTRL_REG_WRITE_YES)).1 = Pyrtl.value r
     /\ rs2_data (step (init REG_WIDTH NUM_REGS)
                    (mkInputs 5 5 5 42 CTRL_REG_WRITE_YES)).1 = Pyrtl.value r)
  /\ rs1_data
       (step (run (step (init REG_WIDTH NUM_REGS)
                     (mkInputs 5 5 5 42 CTRL_REG_WRITE_YES)).2
                  [mkInputs 1 2 7 9 1; mkInputs 0 0 5 77 0])
             (mkInputs 5 0 5 77 1)).1 = 42
  /\ rs2_data
       (step (run (step (init REG_WIDTH NUM_REGS)
                     (mkInputs 5 5 5 42 CTRL_REG_WRITE_YES)).2
                  [mkInputs 1 2 7 9 1; mkInputs 0 0 5 77 0])
             (mkInputs 0 5 5 77 1)).1 = 42
  /\ (step (init REG_WIDTH NUM_REGS) (mkInputs 0 0 5 42 0)).2
     = init REG_WIDTH NUM_REGS.
Proof.
  apply (write_then_read_ordering (init REG_WIDTH NUM_REGS) 5 42
           [mkInputs 1 2 7 9 1; mkInputs 0 0 5 77 0] 0 0 0 5 77 1).
  - split; reflexivity.
  - unfold NUM_REGS; lia.
  - lia.
  - simpl; unfold REG_WIDTH; lia.
  - repeat constructor; simpl; unfold REG_WIDTH; lia.
  - repeat constructor; simpl; unfold CTRL_REG_WRITE_YES; lia.
  - repeat split; simpl; unfold REG_WIDTH; lia.
  - lia.
  - unfold CTRL_REG_WRITE_YES; lia.
Defined.

(** C9: on a register file of 32 registers, [get_register(index)] raises
    its [ValueError] exactly when [index] is outside [0, 31]
    ([get_register(32)] raises), and for [k] within [0, 31] it returns the
    cell stored at index [k]. *)
Theorem get_register_range (self : RegFile) (index k : Z) :
  well_formed self -> 0 <= k <= 31 ->
  ((exists msg, get_register self index = Raise (ValueError msg))
     <-> ~ (0 <= index <= 31))
  /\ (exists r, registers self !! Z.to_nat k = Some r
                /\ get_register self k = Ok r)
  /\ (exists msg, get_register self 32 = Raise (ValueError msg)).
Proof.
  intros Hwf Hk. pose proof Hwf as [Hn Hlen]. unfold NUM_REGS in Hn.
  assert (forall j, 0 <= j <= 31 ->
          exists r, registers self !! Z.to_nat j = Some r
                    /\ get_register self j = Ok r) as Hin.
  { intros j Hj.
    destruct (well_formed_lookup self j Hwf) as [r Hr];
      [unfold NUM_REGS; lia|].
    exists r. split; [done|]. unfold get_register. rewrite Hr, Hn.
    destruct (Z.ltb_spec j 0); [lia|].
    destruct (Z.geb_spec j 32); [lia|]. done. }
  split; [|split; [by apply Hin|]].
  - split.
    + intros [e He] Hi. destruct (Hin index Hi) as (r & _ & Hok). congruence.
    + intros Hout. unfold get_register. rewrite Hn.
      destruct (Z.ltb_spec index 0); [eauto|].
      destruct (Z.geb_spec index 32); [eauto|]. lia.
  - unfold get_register. rewrite Hn. simpl. eauto.
Qed.

Lemma get_register_range_witness :
  ((exists msg,
      get_register (init REG_WIDTH NUM_REGS) (-1) = Raise (ValueError msg))
     <-> ~ (0 <= -1 <= 31))
  /\ (exists r, registers (init REG_WIDTH NUM_REGS) !! Z.to_nat 7 = Some r
                /\ get_register (init REG_WIDTH NUM_REGS) 7 = Ok r)
  /\ (exists msg,
        get_register (init REG_WIDTH NUM_REGS) 32 = Raise (ValueError msg)).
Proof.
  apply (get_register_range (init REG_WIDTH NUM_REGS) (-1) 7).
  - split; reflexivity.
  - lia.
Defined.

End RegfileProofs.

(** * Properties of the codec *)

(** ** Reasoning bit by bit *)

Module Bits.
Import Constants.

Lemma testbit_above (n a i : Z) :
  0 <= a < 2 ^ n -> n <= i -> Z.testbit a i = false.
Proof.
  intros Ha Hi. destruct (Z.eq_dec a 0) as [->|Hnz]; [apply Z.bits_0|].
  assert (0 <= n) as Hn.
  { destruct (Z.le_gt_cases 0 n) as [|Hneg]; [done|].
    rewrite (Z.pow_neg_r 2 n) in Ha by lia. lia. }
  apply Z.bits_above_log2; [lia|].
  apply Z.log2_lt_pow2; [lia|].
  pose proof (Z.pow_le_mono_r 2 n i). lia.
Qed.

(** Above its sign bit a signed value repeats the sign bit. *)
Lemma testbit_above_signed (l a i : Z) :
  0 <= l -> - 2 ^ l <= a < 2 ^ l -> l <= i ->
  Z.testbit a i = Z.testbit a l.
Proof.
  intros Hl Ha Hi. destruct (Z.le_gt_cases 0 a) as [Hpos|Hneg].
  - rewrite !(testbit_above l a) by lia. done.
  - assert (0 <= Z.lnot a < 2 ^ l) as Hn by (unfold Z.lnot; lia).
    assert (a = Z.lnot (Z.lnot a)) as Ha' by (by rewrite Z.lnot_involutive).
    remember (Z.lnot a) as b eqn:Hb. rewrite Ha', !Z.lnot_spec by lia.
    rewrite !(testbit_above l b) by lia. done.
Qed.

Lemma land_pow2 (a k : Z) :
  0 <= k -> Z.land a (2 ^ k) = if Z.testbit a k then 2 ^ k else 0.
Proof.
  intros Hk. apply Z.bits_inj'. intros i Hi.
  rewrite Z.land_spec, Z.pow2_bits_eqb by done.
  destruct (Z.eqb_spec k i) as [->|Hne].
  - destruct (Z.testbit a i); [|by rewrite Z.bits_0].
    rewrite Z.pow2_bits_eqb, Z.eqb_refl by done. done.
  - rewrite andb_false_r. destruct (Z.testbit a k); [|by rewrite Z.bits_0].
    rewrite Z.pow2_bits_eqb by done. by destruct (Z.eqb_spec k i).
Qed.

(** Two integers with no common bit are or-ed by adding them. *)
Lemma lor_disjoint (a b : Z) : Z.land a b = 0 -> Z.lor a b = a + b.
Proof.
  intros Hd. rewrite <- Z.lxor_lor by done. symmetry.
  by apply Z.add_nocarry_lxor.
Qed.

(** The masks are runs of ones. *)
Ltac masks :=
  change OPCODE_MASK with (Z.ones 7) in *;
  change RD_MASK with (Z.ones 5) in *;
  change FUNCT3_MASK with (Z.ones 3) in *;
  change RS1_MASK with (Z.ones 5) in *;
  change RS2_MASK with (Z.ones 5) in *;
  change FUNCT7_MASK with (Z.ones 7) in *;
  change IMM_I_MASK with (Z.ones 12) in *;
  change IMM_S_HI_MASK with (Z.ones 7) in *;
  change IMM_S_LO_MASK with (Z.ones 5) in *;
  change IMM_B_BIT11_MASK with (Z.ones 1) in *;
  change IMM_B_BITS10_5_MASK with (Z.ones 6) in *;
  change IMM_B_BITS4_1_MASK with (Z.ones 4) in *;
  change IMM_B_BIT12_MASK with (Z.ones 1) in *;
  change IMM_U_MASK with (Z.ones 20) in *;
  change IMM_J_BIT11_MASK with (Z.ones 1) in *;
  change IMM_J_BITS19_12_MASK with (Z.ones 8) in *;
  change IMM_J_BITS10_1_MASK with (Z.ones 10) in *;
  change IMM_J_BIT20_MASK with (Z.ones 1) in *;
  change 0xFFFFFFFF with (Z.ones 32) in *.

Ltac shifts :=
  unfold OPCODE_SHIFT, RD_SHIFT, FUNCT3_SHIFT, RS1_SHIFT, RS2_SHIFT,
    FUNCT7_SHIFT, IMM_I_SHIFT, IMM_S_HI_SHIFT, IMM_S_LO_SHIFT,
    IMM_B_BIT11_SHIFT, IMM_B_BITS10_5_SHIFT, IMM_B_BITS4_1_SHIFT,
    IMM_B_BIT12_SHIFT, IMM_U_SHIFT, IMM_J_BIT11_SHIFT,
    IMM_J_BITS19_12_SHIFT, IMM_J_BITS10_1_SHIFT, IMM_J_BIT20_SHIFT in *.

(** Bit [i] of an expression, in terms of bits of its variables. *)
Ltac testbits :=
  repeat first
    [ rewrite Z.land_spec | rewrite Z.lor_spec
    | rewrite Z.shiftr_spec by lia | rewrite Z.shiftl_spec by lia
    | rewrite Z.testbit_ones by lia
    | rewrite Z.lnot_spec by lia
    | rewrite Z.testbit_mod_pow2 by lia
    | rewrite Z.bits_0 ].

(** Comparisons of bit indices: decided where the context decides them,
    split otherwise. *)
Ltac split_cmp :=
  repeat match goal with
    | |- context [?a <? ?b] =>
        first [ rewrite (proj2 (Z.ltb_lt a b)) by lia
              | rewrite (proj2 (Z.ltb_ge a b)) by lia
              | destruct (Z.ltb_spec a b) ]
    | |- context [?a <=? ?b] =>
        first [ rewrite (proj2 (Z.leb_le a b)) by lia
              | rewrite (proj2 (Z.leb_gt a b)) by lia
              | destruct (Z.leb_spec a b) ]
    end.

(** Bits below bit 0, and bits above the width of a bounded variable. *)
Ltac drop_bits :=
  repeat match goal with
    | |- context [Z.testbit ?a ?i] =>
        first [ rewrite (Z.testbit_neg_r a i) by lia
              | match goal with
                | H : 0 <= a < 2 ^ ?n |- _ =>
                    rewrite (testbit_above n a i H) by lia
                end ]
    end.

Ltac bits_done :=
  simpl;
  rewrite ?andb_true_r, ?andb_false_r, ?orb_false_r, ?orb_true_r,
    ?orb_false_l;
  first [ reflexivity | lia | (f_equal; lia) | btauto | solve [auto] ].

Ltac bitblast :=
  repeat (progress (testbits; split_cmp; drop_bits)); bits_done.

Ltac bits_eq := apply Z.bits_inj'; intros ?i ?Hi; bitblast.

End Bits.

(** ** Sign extension *)

Module SignExtend.
Import Constants Bits.

Lemma py_lshift_ok (a n : Z) : 0 <= n -> py_lshift a n = Ok (Z.shiftl a n).
Proof.
  intros Hn. unfold py_lshift. by destruct (Z.ltb_spec n 0); [lia|].
Qed.

(** The code's result, with the mask [(1 << nbits) - 1] as a run of ones. *)
Lemma sign_extend_ones (value nbits : Z) :
  1 <= nbits ->
  sign_extend value nbits =
    Ok (if Z.testbit value (nbits - 1)
        then Z.lor (Z.land value (Z.ones nbits)) (Z.lnot (Z.ones nbits))
        else Z.land value (Z.ones nbits)).
Proof.
  intros Hn. unfold sign_extend.
  rewrite !py_lshift_ok by lia. simpl.
  rewrite !Z.shiftl_1_l.
  replace (2 ^ nbits - 1) with (Z.ones nbits)
    by (rewrite Z.ones_equiv; lia).
  rewrite land_pow2 by lia.
  replace (Z.testbit (Z.land value (Z.ones nbits)) (nbits - 1))
    with (Z.testbit value (nbits - 1)) by bitblast.
  pose proof (Z.pow_pos_nonneg 2 (nbits - 1)) as Hpow.
  destruct (Z.testbit value (nbits - 1)).
  - destruct (Z.eqb_spec (2 ^ (nbits - 1)) 0); [lia|done].
  - done.
Qed.

Lemma sign_extend_raises (value nbits : Z) :
  nbits < 1 -> exists e, sign_extend value nbits = Raise e.
Proof.
  intros Hn. unfold sign_extend, py_lshift.
  destruct (Z.ltb_spec (nbits - 1) 0); [|lia]. simpl. eauto.
Qed.

(** Masking before or-ing the high ones changes nothing. *)
Lemma lor_lnot_ones (value nbits : Z) :
  0 <= nbits ->
  Z.lor (Z.land value (Z.ones nbits)) (Z.lnot (Z.ones nbits))
  = Z.lor value (Z.lnot (Z.ones nbits)).
Proof. intros Hn. bits_eq. Qed.

(** A set sign bit makes the result the pattern minus [2 ^ nbits]. *)
Lemma lor_lnot_ones_sub (p nbits : Z) :
  0 <= nbits -> 0 <= p < 2 ^ nbits ->
  Z.lor p (Z.lnot (Z.ones nbits)) = p - 2 ^ nbits.
Proof.
  intros Hn Hp. rewrite lor_disjoint.
  - rewrite Z.ones_equiv. unfold Z.lnot. lia.
  - bits_eq.
Qed.

(** Sign extension recovers a signed value from its low [nbits] bits. *)
Lemma sign_extend_signed (value v nbits : Z) :
  1 <= nbits -> - 2 ^ (nbits - 1) <= v < 2 ^ (nbits - 1) ->
  Z.land value (Z.ones nbits) = Z.land v (Z.ones nbits) ->
  sign_extend value nbits = Ok v.
Proof.
  intros Hn Hv Hlow. rewrite sign_extend_ones by done.
  assert (forall i, 0 <= i < nbits -> Z.testbit value i = Z.testbit v i)
    as Hbits.
  { intros i Hi.
    assert (Z.testbit (Z.land value (Z.ones nbits)) i
            = Z.testbit (Z.land v (Z.ones nbits)) i) as Hi' by (by rewrite Hlow).
    revert Hi'. bitblast. }
  rewrite Hbits, Hlow by lia. f_equal.
  apply Z.bits_inj'. intros i Hi.
  destruct (Z.ltb_spec i nbits) as [Hlt|Hge].
  - destruct (Z.testbit v (nbits - 1)); bitblast.
  - rewrite (testbit_above_signed (nbits - 1) v i) by lia.
    destruct (Z.testbit v (nbits - 1)); bitblast.
Qed.

End SignExtend.

(** ** Decoding *)

Module DecodeProofs.
Import Constants Isa CodecSpec Bits SignExtend.

(** Unfolds [decode_instr] down to the extractors and the table lookup. *)
Ltac decode_unfold :=
  cbv beta iota zeta delta
    [decode_instr get_mnemonic bind Decoded.init
     Decoded.set_opcode Decoded.set_rd Decoded.set_rs1 Decoded.set_rs2
     Decoded.set_funct3 Decoded.set_funct7 Decoded.set_imm Decoded.set_type
     Decoded.set_mnemonic
     Decoded.opcode Decoded.rd Decoded.rs1 Decoded.rs2 Decoded.funct3
     Decoded.funct7 Decoded.imm Decoded.type Decoded.mnemonic].

(** Conditions that are closed terms evaluate. *)
Ltac eval_cond :=
  repeat match goal with
    | |- context [if ?c then _ else _] =>
        let v := eval vm_compute in c in
        first [constr_eq v true | constr_eq v false];
        change c with v; cbv iota
    end.

Section Immediates.
Variable instr : Z.

Lemma extract_imm_i_ok : exists v, extract_imm_i instr = Ok v.
Proof. unfold extract_imm_i. rewrite sign_extend_ones by lia. eauto. Qed.

Lemma extract_imm_s_ok : exists v, extract_imm_s instr = Ok v.
Proof. unfold extract_imm_s. rewrite sign_extend_ones by lia. eauto. Qed.

Lemma extract_imm_b_ok : exists v, extract_imm_b instr = Ok v.
Proof. unfold extract_imm_b. rewrite sign_extend_ones by lia. eauto. Qed.

Lemma extract_imm_j_ok : exists v, extract_imm_j instr = Ok v.
Proof. unfold extract_imm_j. rewrite sign_extend_ones by lia. eauto. Qed.
End Immediates.

(** Every key of the table carries an opcode [decode_instr] recognizes. *)
Lemma mnemonic_map_opcodes :
  map_Forall (fun k _ => py_in k.1.1 recognized_opcodes = true) mnemonic_map.
Proof.
  apply map_Forall_to_list. vm_compute. repeat constructor.
Qed.

Lemma mnemonic_map_unrecognized (op f3 f7 : Z) :
  py_in op recognized_opcodes = false ->
  dict_get mnemonic_map (op, f3, f7) "UNKNOWN" = "UNKNOWN".
Proof.
  intros Hop. unfold dict_get.
  destruct (mnemonic_map !! (op, f3, f7)) as [v|] eqn:Hlook; [|done].
  apply mnemonic_map_opcodes in Hlook.
  change (py_in op recognized_opcodes = true) in Hlook. congruence.
Qed.

(** A lookup that finds nothing yields "UNKNOWN". *)
Lemma get_mnemonic_unknown (d : Decoded.t) :
  mnemonic_map !! (Decoded.opcode d, Decoded.funct3 d,
                   if String.eqb (Decoded.type d) "R"
                   then Decoded.funct7 d else 0) = None ->
  get_mnemonic d = "UNKNOWN".
Proof. intros Hnone. unfold get_mnemonic, dict_get. by rewrite Hnone. Qed.

(** Every item of the dict display but the first of the two with the key
    [(0x13, 0b101, 0)] is found under its own name. *)
Lemma mnemonic_items_resolved :
  Forall (fun kv => kv.2 = "SRLI" \/ mnemonic_map !! kv.1 = Some kv.2)
         mnemonic_items.
Proof.
  unfold mnemonic_items.
  repeat (apply Forall_cons; split; [first [by right | by left]|]).
  apply Forall_nil. done.
Qed.

Lemma decode_instr_ok (instr : Z) : exists d, decode_instr instr = Ok d.
Proof.
  decode_unfold.
  destruct (extract_imm_i_ok instr) as [vi ->].
  destruct (extract_imm_s_ok instr) as [vs ->].
  destruct (extract_imm_b_ok instr) as [vb ->].
  destruct (extract_imm_j_ok instr) as [vj ->].
  repeat match goal with
    | |- context [if ?c then _ else _] => destruct c
    end; eauto.
Qed.

(** C7: [decode_instr] returns a record for every word (for every integer,
    in fact: no call it makes can raise); when the low seven bits are not
    an opcode it dispatches on, the record has the empty type, [imm = 0],
    the mnemonic "UNKNOWN", and the extracted bit fields, among them
    [funct3] and [funct7], as they stand in the word. *)
Theorem decode_instr_total (instr unknown : Z) :
  py_in (extract_opcode unknown) recognized_opcodes = false ->
  (exists d, decode_instr instr = Ok d)
  /\ decode_instr unknown =
       Ok {| Decoded.opcode := Z.land unknown 0x7F;
             Decoded.rd := extract_rd unknown;
             Decoded.rs1 := extract_rs1 unknown;
             Decoded.rs2 := extract_rs2 unknown;
             Decoded.funct3 := Z.land (Z.shiftr unknown 12) 0x7;
             Decoded.funct7 := Z.land (Z.shiftr unknown 25) 0x7F;
             Decoded.imm := 0;
             Decoded.type := "";
             Decoded.mnemonic := "UNKNOWN" |}.
Proof.
  intros Hop. split; [apply decode_instr_ok|].
  pose proof (mnemonic_map_unrecognized
                (extract_opcode unknown) (extract_funct3 unknown) 0 Hop) as Hm.
  decode_unfold.
  change (Z.land unknown 0x7F) with (extract_opcode unknown).
  change (Z.land (Z.shiftr unknown 12) 0x7) with (extract_funct3 unknown).
  change (Z.land (Z.shiftr unknown 25) 0x7F) with (extract_funct7 unknown).
  revert Hop Hm. generalize (extract_opcode unknown) as op. intros op Hop Hm.
  unfold recognized_opcodes, i_type_opcodes, u_type_opcodes, py_in in *.
  cbn [existsb app] in *. repeat (apply orb_false_elim in Hop as [? Hop]).
  repeat match goal with
    | H : (op =? ?c) = false |- _ => rewrite H; clear H
    end.
  cbn [orb]. eval_cond. by rewrite Hm.
Qed.

Lemma decode_instr_total_witness :
  (exists d, decode_instr 0x00208033 = Ok d)
  /\ decode_instr 0xFFFFFFFF =
       Ok {| Decoded.opcode := Z.land 0xFFFFFFFF 0x7F;
             Decoded.rd := extract_rd 0xFFFFFFFF;
             Decoded.rs1 := extract_rs1 0xFFFFFFFF;
             Decoded.rs2 := extract_rs2 0xFFFFFFFF;
             Decoded.funct3 := Z.land (Z.shiftr 0xFFFFFFFF 12) 0x7;
             Decoded.funct7 := Z.land (Z.shiftr 0xFFFFFFFF 25) 0x7F;
             Decoded.imm := 0;
             Decoded.type := "";
             Decoded.mnemonic := "UNKNOWN" |}.
Proof. apply (decode_instr_total 0x00208033 0xFFFFFFFF). reflexivity. Defined.

(** *** Sign extension of the I-immediate *)

Lemma imm_i_pattern_range (instr : Z) :
  0 <= Z.land (Z.shiftr instr 20) 0xFFF < 2 ^ 12.
Proof.
  change 0xFFF with (Z.ones 12). rewrite Z.land_ones by lia.
  apply Z.mod_pos_bound. lia.
Qed.

Lemma extract_imm_i_negative (instr : Z) :
  Z.testbit (Z.land (Z.shiftr instr 20) 0xFFF) 11 = true ->
  extract_imm_i instr = Ok (Z.land (Z.shiftr instr 20) 0xFFF - 4096).
Proof.
  intros Hsign. pose proof (imm_i_pattern_range instr) as Hp.
  unfold extract_imm_i, IMM_I_SHIFT, IMM_I_MASK.
  rewrite sign_extend_ones by lia.
  change (12 - 1) with 11. rewrite Hsign.
  rewrite lor_lnot_ones, lor_lnot_ones_sub by lia. done.
Qed.

(** C6: when bit 11 of the 12-bit pattern in bits 31..20 of a word is set,
    [extract_imm_i] returns the pattern minus 4096, a negative number that
    fits 32 bits; a word whose pattern is 0xFFF yields -1; and for
    [nbits >= 1], [sign_extend(value, nbits)] is [value] masked to [nbits]
    bits when bit [nbits - 1] is clear and [value | ~mask] when it is
    set, where [mask = (1 << nbits) - 1]. *)
Theorem sign_extension (instr allones value nbits : Z) :
  Z.testbit (Z.land (Z.shiftr instr 20) 0xFFF) 11 = true ->
  Z.land (Z.shiftr allones 20) 0xFFF = 0xFFF ->
  1 <= nbits ->
  extract_imm_i instr = Ok (Z.land (Z.shiftr instr 20) 0xFFF - 4096)
  /\ - 2 ^ 31 <= Z.land (Z.shiftr instr 20) 0xFFF - 4096 < 0
  /\ extract_imm_i allones = Ok (-1)
  /\ sign_extend value nbits =
       Ok (if Z.testbit value (nbits - 1)
           then Z.lor value (Z.lnot (2 ^ nbits - 1))
           else Z.land value (2 ^ nbits - 1)).
Proof.
  intros Hsign Hones Hn. split; [by apply extract_imm_i_negative|].
  split; [pose proof (imm_i_pattern_range instr); lia|]. split.
  - rewrite extract_imm_i_negative; rewrite Hones; reflexivity.
  - rewrite sign_extend_ones by done.
    replace (2 ^ nbits - 1) with (Z.ones nbits)
      by (rewrite Z.ones_equiv; lia).
    destruct (Z.testbit value (nbits - 1)); [|done].
    by rewrite lor_lnot_ones by lia.
Qed.

Lemma sign_extension_witness :
  extract_imm_i 0x80000013
    = Ok (Z.land (Z.shiftr 0x80000013 20) 0xFFF - 4096)
  /\ - 2 ^ 31 <= Z.land (Z.shiftr 0x80000013 20) 0xFFF - 4096 < 0
  /\ extract_imm_i 0xFFF00013 = Ok (-1)
  /\ sign_extend 0x1234 13 =
       Ok (if Z.testbit 0x1234 (13 - 1)
           then Z.lor 0x1234 (Z.lnot (2 ^ 13 - 1))
           else Z.land 0x1234 (2 ^ 13 - 1)).
Proof.
  apply (sign_extension 0x80000013 0xFFF00013 0x1234 13).
  - reflexivity.
  - reflexivity.
  - lia.
Defined.

(** C10: a word with the BRANCH opcode and [funct3] 0b010 or 0b011 decodes
    with type "B" and mnemonic "UNKNOWN"; so there is a 32-bit word whose
    opcode is recognized, whose type is not empty and whose mnemonic is
    "UNKNOWN". *)
Theorem unknown_mnemonic_recognized_opcode (instr : Z) :
  extract_opcode instr = OPCODE_BRANCH ->
  extract_funct3 instr = 2 \/ extract_funct3 instr = 3 ->
  (exists d, decode_instr instr = Ok d
             /\ Decoded.type d = "B" /\ Decoded.mnemonic d = "UNKNOWN")
  /\ (exists w d, 0 <= w < 2 ^ 32
                  /\ py_in (extract_opcode w) recognized_opcodes = true
                  /\ decode_instr w = Ok d
                  /\ Decoded.type d <> ""
                  /\ Decoded.mnemonic d = "UNKNOWN").
Proof.
  intros Hop Hf3. split.
  - decode_unfold. destruct (extract_imm_b_ok instr) as [vb ->].
    rewrite Hop. eval_cond. eexists. split; [reflexivity|].
    split; [reflexivity|]. cbn [Decoded.mnemonic].
    destruct Hf3 as [-> | ->]; reflexivity.
  - exists 0x2063. eexists. split; [lia|]. split; [reflexivity|].
    split; [vm_compute; reflexivity|]. split; [discriminate|reflexivity].
Qed.

Lemma unknown_mnemonic_recognized_opcode_witness :
  (exists d, decode_instr 0x3063 = Ok d
             /\ Decoded.type d = "B" /\ Decoded.mnemonic d = "UNKNOWN")
  /\ (exists w d, 0 <= w < 2 ^ 32
                  /\ py_in (extract_opcode w) recognized_opcodes = true
                  /\ decode_instr w = Ok d
                  /\ Decoded.type d <> ""
                  /\ Decoded.mnemonic d = "UNKNOWN").
Proof.
  apply (unknown_mnemonic_recognized_opcode 0x3063).
  - reflexivity.
  - right. reflexivity.
Defined.

(** C3, on the code: the dict display has 37 items and the dict 36 keys,
    because the items for SRLI and SRAI have the same key
    [(0b0010011, 0b101, 0)] and the later one, "SRAI", replaces the
    earlier; no decoded record resolves to "SRLI", and the encoding of
    [srli x1, x2, 3] decodes with the mnemonic "SRAI". *)
Theorem srli_resolves_to_srai :
  length mnemonic_items = 37%nat
  /\ size mnemonic_map = 36%nat
  /\ (OPCODE_SRLI, FUNCT3_SRL_SRA, 0) = (OPCODE_SRAI, FUNCT3_SRL_SRA, 0)
  /\ mnemonic_map !! (OPCODE_SRLI, FUNCT3_SRL_SRA, 0) = Some "SRAI"
  /\ (forall d, get_mnemonic d <> "SRLI")
  /\ (exists d,
        decode_instr
          (encode (I (IType.mk 1 2 3 FUNCT3_SRL_SRA OPCODE_SRLI))) = Ok d
        /\ Decoded.type d = "I"
        /\ Decoded.mnemonic d = "SRAI").
Proof.
  split; [reflexivity|]. split; [vm_compute; reflexivity|].
  split; [reflexivity|]. split; [vm_compute; reflexivity|]. split.
  - intros d. unfold get_mnemonic, dict_get.
    match goal with |- context [mnemonic_map !! ?k] =>
      destruct (mnemonic_map !! k) as [v|] eqn:Hlook end; [|discriminate].
    revert Hlook. generalize dependent v.
    match goal with |- forall v, mnemonic_map !! ?k = Some v -> _ =>
      generalize k end.
    apply (map_Forall_to_list (fun _ v => default "UNKNOWN" (Some v) <> "SRLI")).
    vm_compute. repeat constructor; discriminate.
  - eexists. split; [vm_compute; reflexivity|]. split; reflexivity.
Qed.

End DecodeProofs.

(** ** Encoding *)

Module EncodeProofs.
Import Constants Isa CodecSpec Bits SignExtend DecodeProofs.

Ltac encode_unfold :=
  cbv beta iota zeta delta
    [encode opcode_of reduce_fields
     RType.encode IType.encode SType.encode BType.encode UType.encode
     JType.encode
     RType.rd RType.rs1 RType.rs2 RType.funct3 RType.funct7 RType.opcode
     IType.rd IType.rs1 IType.imm IType.funct3 IType.opcode
     SType.rs1 SType.rs2 SType.imm SType.funct3 SType.opcode
     BType.rs1 BType.rs2 BType.imm BType.funct3 BType.opcode
     UType.rd UType.imm UType.opcode
     JType.rd JType.imm JType.opcode
     extract_opcode extract_rd extract_rs1 extract_rs2 extract_funct3
     extract_funct7 extract_imm_u] in *;
  masks; shifts.

Lemma encode_low7 (instr : Instr) :
  Z.land (encode instr) 0x7F = Z.land (opcode_of instr) 0x7F.
Proof.
  destruct instr as [[]|[]|[]|[]|[]|[]]; encode_unfold;
    change 0x7F with (Z.ones 7); bits_eq.
Qed.

Lemma encode_reduce_fields (instr : Instr) :
  encode (reduce_fields instr) = encode instr.
Proof.
  destruct instr as [[]|[]|[]|[]|[]|[]]; encode_unfold; bits_eq.
Qed.

(** C8 as the spec states it fails where the opcode is wider than seven
    bits: the encoders do not mask the opcode, and the low seven bits of
    the word are then not the opcode. *)
Lemma encode_low7_wide_opcode :
  Z.land (encode (R (RType.mk 0 0 0 0 0 0xB3))) 0x7F
  <> opcode_of (R (RType.mk 0 0 0 0 0 0xB3)).
Proof. vm_compute. discriminate. Qed.

(** C8, amended: for every variant and all field values the low seven bits
    of [encode()] are the opcode modulo 2^7, which is the opcode when it
    lies within seven bits; and when the opcode lies within seven bits,
    every register index, [funct3], [funct7] and the immediates of the I,
    S and U formats stand at their places in the word, reduced modulo 2 to
    their declared widths.  Of the B and J immediates nothing is said. *)
Theorem encode_opcode_and_masking (instr placed : Instr) :
  0 <= opcode_of placed < 2 ^ 7 ->
  Z.land (encode instr) 0x7F = opcode_of instr mod 2 ^ 7
  /\ match placed with
     | R i =>
         extract_rd (encode placed) = RType.rd i mod 2 ^ 5
         /\ extract_funct3 (encode placed) = RType.funct3 i mod 2 ^ 3
         /\ extract_rs1 (encode placed) = RType.rs1 i mod 2 ^ 5
         /\ extract_rs2 (encode placed) = RType.rs2 i mod 2 ^ 5
         /\ extract_funct7 (encode placed) = RType.funct7 i mod 2 ^ 7
     | I i =>
         extract_rd (encode placed) = IType.rd i mod 2 ^ 5
         /\ extract_funct3 (encode placed) = IType.funct3 i mod 2 ^ 3
         /\ extract_rs1 (encode placed) = IType.rs1 i mod 2 ^ 5
         /\ Z.land (Z.shiftr (encode placed) IMM_I_SHIFT) IMM_I_MASK
            = IType.imm i mod 2 ^ 12
     | S i =>
         extract_funct3 (encode placed) = SType.funct3 i mod 2 ^ 3
         /\ extract_rs1 (encode placed) = SType.rs1 i mod 2 ^ 5
         /\ extract_rs2 (encode placed) = SType.rs2 i mod 2 ^ 5
         /\ Z.land (Z.shiftr (encode placed) IMM_S_LO_SHIFT) IMM_S_LO_MASK
            = (SType.imm i mod 2 ^ 12) mod 2 ^ 5
         /\ Z.land (Z.shiftr (encode placed) IMM_S_HI_SHIFT) IMM_S_HI_MASK
            = Z.shiftr (SType.imm i mod 2 ^ 12) 5
     | B i =>
         extract_funct3 (encode placed) = BType.funct3 i mod 2 ^ 3
         /\ extract_rs1 (encode placed) = BType.rs1 i mod 2 ^ 5
         /\ extract_rs2 (encode placed) = BType.rs2 i mod 2 ^ 5
     | U i =>
         extract_rd (encode placed) = UType.rd i mod 2 ^ 5
         /\ extract_imm_u (encode placed) = UType.imm i mod 2 ^ 20
     | J i =>
         extract_rd (encode placed) = JType.rd i mod 2 ^ 5
     end.
Proof.
  intros Hop. split.
  { rewrite encode_low7. change 0x7F with (Z.ones 7). by rewrite Z.land_ones. }
  destruct placed as [[]|[]|[]|[]|[]|[]]; encode_unfold;
    repeat split; bits_eq.
Qed.

Lemma encode_opcode_and_masking_witness :
  Z.land (encode (R (RType.mk 0 0 0 0 0 0xB3))) 0x7F
  = opcode_of (R (RType.mk 0 0 0 0 0 0xB3)) mod 2 ^ 7
  /\ (extract_funct3 (encode (S (SType.mk 33 (-1) (-3) 9 OPCODE_STORE)))
      = 9 mod 2 ^ 3
      /\ extract_rs1 (encode (S (SType.mk 33 (-1) (-3) 9 OPCODE_STORE)))
         = 33 mod 2 ^ 5
      /\ extract_rs2 (encode (S (SType.mk 33 (-1) (-3) 9 OPCODE_STORE)))
         = (-1) mod 2 ^ 5
      /\ Z.land (Z.shiftr (encode (S (SType.mk 33 (-1) (-3) 9 OPCODE_STORE)))
                          IMM_S_LO_SHIFT) IMM_S_LO_MASK
         = ((-3) mod 2 ^ 12) mod 2 ^ 5
      /\ Z.land (Z.shiftr (encode (S (SType.mk 33 (-1) (-3) 9 OPCODE_STORE)))
                          IMM_S_HI_SHIFT) IMM_S_HI_MASK
         = Z.shiftr ((-3) mod 2 ^ 12) 5).
Proof.
  apply (encode_opcode_and_masking
           (R (RType.mk 0 0 0 0 0 0xB3))
           (S (SType.mk 33 (-1) (-3) 9 OPCODE_STORE))).
  simpl. unfold OPCODE_STORE. lia.
Defined.

Lemma encode_low7_opcode (instr : Instr) :
  0 <= opcode_of instr < 2 ^ 7 ->
  Z.land (encode instr) 0x7F = opcode_of instr.
Proof.
  intros Hop. rewrite encode_low7.
  change 0x7F with (Z.ones 7). rewrite Z.land_ones by lia.
  by apply Z.mod_small.
Qed.

(** *** Where the B and J immediates go *)

Section BranchPlacement.
Variable self : BType.t.
Hypothesis opcode_width : 0 <= BType.opcode self < 2 ^ 7.

(** Word bit 31 takes immediate bit 11, and word bit 7 immediate
    bit 0. *)
Lemma BType_encode_bit31 :
  Z.testbit (BType.encode self) 31 = Z.testbit (BType.imm self) 11.
Proof. destruct self. encode_unfold. bitblast. Qed.

Lemma BType_encode_bit7 :
  Z.testbit (BType.encode self) 7 = Z.testbit (BType.imm self) 0.
Proof. destruct self. encode_unfold. bitblast. Qed.

Lemma BType_encode_bits30_25 (i : Z) :
  25 <= i <= 30 ->
  Z.testbit (BType.encode self) i = Z.testbit (BType.imm self) (i - 20).
Proof. intros Hi. destruct self. encode_unfold. bitblast. Qed.

Lemma BType_encode_bits11_8 (i : Z) :
  8 <= i <= 11 ->
  Z.testbit (BType.encode self) i = Z.testbit (BType.imm self) (i - 7).
Proof. intros Hi. destruct self. encode_unfold. bitblast. Qed.
End BranchPlacement.

Section JumpPlacement.
Variable self : JType.t.
Hypothesis opcode_width : 0 <= JType.opcode self < 2 ^ 7.

(** Word bits 19..12 take immediate bits 7..0. *)
Lemma JType_encode_bits19_12 (i : Z) :
  12 <= i <= 19 ->
  Z.testbit (JType.encode self) i = Z.testbit (JType.imm self) (i - 12).
Proof. intros Hi. destruct self. encode_unfold. bitblast. Qed.

Lemma JType_encode_bit31 :
  Z.testbit (JType.encode self) 31 = Z.testbit (JType.imm self) 20.
Proof. destruct self. encode_unfold. bitblast. Qed.

Lemma JType_encode_bit20 :
  Z.testbit (JType.encode self) 20 = Z.testbit (JType.imm self) 11.
Proof. destruct self. encode_unfold. bitblast. Qed.

Lemma JType_encode_bits30_21 (i : Z) :
  21 <= i <= 30 ->
  Z.testbit (JType.encode self) i = Z.testbit (JType.imm self) (i - 20).
Proof. intros Hi. destruct self. encode_unfold. bitblast. Qed.
End JumpPlacement.

(** *** Round trips of the formats whose immediate is stored in place *)

Section RoundTripR.
Variable self : RType.t.
Hypothesis rd_width : 0 <= RType.rd self < 2 ^ 5.
Hypothesis rs1_width : 0 <= RType.rs1 self < 2 ^ 5.
Hypothesis rs2_width : 0 <= RType.rs2 self < 2 ^ 5.
Hypothesis funct3_width : 0 <= RType.funct3 self < 2 ^ 3.
Hypothesis funct7_width : 0 <= RType.funct7 self < 2 ^ 7.
Hypothesis opcode_r : RType.opcode self = OPCODE_R_TYPE.

Lemma RType_fields :
  extract_opcode (RType.encode self) = RType.opcode self
  /\ extract_rd (RType.encode self) = RType.rd self
  /\ extract_rs1 (RType.encode self) = RType.rs1 self
  /\ extract_rs2 (RType.encode self) = RType.rs2 self
  /\ extract_funct3 (RType.encode self) = RType.funct3 self
  /\ extract_funct7 (RType.encode self) = RType.funct7 self.
Proof.
  assert (0 <= RType.opcode self < 2 ^ 7) as Hop
    by (rewrite opcode_r; unfold OPCODE_R_TYPE; lia).
  clear opcode_r. destruct self. encode_unfold.
  repeat split; bits_eq.
Qed.

(** X26: an R-type instruction with the R-type opcode and every field within
    its width decodes, after [encode()], with type "R" and the same opcode,
    [rd], [rs1], [rs2], [funct3] and [funct7]. *)
Lemma RType_roundtrip :
  exists d, decode_instr (encode (R self)) = Ok d
    /\ Decoded.type d = "R"
    /\ Decoded.opcode d = RType.opcode self
    /\ Decoded.rd d = RType.rd self
    /\ Decoded.rs1 d = RType.rs1 self
    /\ Decoded.rs2 d = RType.rs2 self
    /\ Decoded.funct3 d = RType.funct3 self
    /\ Decoded.funct7 d = RType.funct7 self.
Proof.
  destruct RType_fields as (Hop & Hrd & Hrs1 & Hrs2 & Hf3 & Hf7).
  unfold encode. decode_unfold.
  rewrite Hop, Hrd, Hrs1, Hrs2, Hf3, Hf7, opcode_r. eval_cond.
  eexists. split; [reflexivity|]. repeat split.
Qed.
End RoundTripR.

Lemma RType_roundtrip_witness :
  exists d,
    decode_instr (encode (R (RType.mk 31 2 3 5 0x20 OPCODE_R_TYPE))) = Ok d
    /\ Decoded.type d = "R"
    /\ Decoded.opcode d = RType.opcode (RType.mk 31 2 3 5 0x20 OPCODE_R_TYPE)
    /\ Decoded.rd d = RType.rd (RType.mk 31 2 3 5 0x20 OPCODE_R_TYPE)
    /\ Decoded.rs1 d = RType.rs1 (RType.mk 31 2 3 5 0x20 OPCODE_R_TYPE)
    /\ Decoded.rs2 d = RType.rs2 (RType.mk 31 2 3 5 0x20 OPCODE_R_TYPE)
    /\ Decoded.funct3 d = RType.funct3 (RType.mk 31 2 3 5 0x20 OPCODE_R_TYPE)
    /\ Decoded.funct7 d = RType.funct7 (RType.mk 31 2 3 5 0x20 OPCODE_R_TYPE).
Proof.
  apply (RType_roundtrip (RType.mk 31 2 3 5 0x20 OPCODE_R_TYPE));
    simpl; (lia || reflexivity).
Defined.

(** An opcode of the I-type tuple is one of three numbers. *)
Lemma i_type_opcodes_inv (op : Z) :
  py_in op i_type_opcodes = true ->
  op = OPCODE_ADDI \/ op = OPCODE_JALR \/ op = OPCODE_LOAD.
Proof.
  unfold py_in, i_type_opcodes. cbn [existsb]. intros Hin.
  repeat (apply orb_prop in Hin as [Hin|Hin]);
    first [discriminate | apply Z.eqb_eq in Hin; subst op; auto].
Qed.

Section RoundTripI.
Variable self : IType.t.
Hypothesis rd_width : 0 <= IType.rd self < 2 ^ 5.
Hypothesis rs1_width : 0 <= IType.rs1 self < 2 ^ 5.
Hypothesis funct3_width : 0 <= IType.funct3 self < 2 ^ 3.
Hypothesis imm_width : - 2 ^ 11 <= IType.imm self < 2 ^ 11.
Hypothesis opcode_i : py_in (IType.opcode self) i_type_opcodes = true.

Lemma IType_opcode_width : 0 <= IType.opcode self < 2 ^ 7.
Proof.
  destruct (i_type_opcodes_inv _ opcode_i) as [-> | [-> | ->]];
    vm_compute; split; congruence.
Qed.

Lemma IType_fields :
  extract_opcode (IType.encode self) = IType.opcode self
  /\ extract_rd (IType.encode self) = IType.rd self
  /\ extract_rs1 (IType.encode self) = IType.rs1 self
  /\ extract_funct3 (IType.encode self) = IType.funct3 self.
Proof.
  pose proof IType_opcode_width as Hop.
  clear opcode_i imm_width. destruct self. encode_unfold.
  repeat split; bits_eq.
Qed.

Lemma IType_imm : extract_imm_i (IType.encode self) = Ok (IType.imm self).
Proof.
  pose proof IType_opcode_width as Hop.
  unfold extract_imm_i. apply sign_extend_signed; [lia|exact imm_width|].
  clear opcode_i imm_width. destruct self. encode_unfold. bits_eq.
Qed.

(** X27: an I-type instruction with an opcode of the I-type tuple, fields
    within their widths and an immediate of the signed 12-bit range
    decodes, after [encode()], with type "I" and the same opcode, [rd],
    [rs1], [funct3] and immediate. *)
Lemma IType_roundtrip :
  exists d, decode_instr (encode (I self)) = Ok d
    /\ Decoded.type d = "I"
    /\ Decoded.opcode d = IType.opcode self
    /\ Decoded.rd d = IType.rd self
    /\ Decoded.rs1 d = IType.rs1 self
    /\ Decoded.funct3 d = IType.funct3 self
    /\ Decoded.imm d = IType.imm self.
Proof.
  destruct IType_fields as (Hop & Hrd & Hrs1 & Hf3).
  unfold encode. decode_unfold.
  rewrite Hop, Hrd, Hrs1, Hf3, IType_imm, opcode_i.
  destruct (i_type_opcodes_inv _ opcode_i) as [-> | [-> | ->]];
    eval_cond; (eexists; split; [reflexivity|]; repeat split).
Qed.
End RoundTripI.

Lemma IType_roundtrip_witness :
  exists d,
    decode_instr (encode (I (IType.mk 5 10 (-2048) 2 OPCODE_LOAD))) = Ok d
    /\ Decoded.type d = "I"
    /\ Decoded.opcode d = IType.opcode (IType.mk 5 10 (-2048) 2 OPCODE_LOAD)
    /\ Decoded.rd d = IType.rd (IType.mk 5 10 (-2048) 2 OPCODE_LOAD)
    /\ Decoded.rs1 d = IType.rs1 (IType.mk 5 10 (-2048) 2 OPCODE_LOAD)
    /\ Decoded.funct3 d = IType.funct3 (IType.mk 5 10 (-2048) 2 OPCODE_LOAD)
    /\ Decoded.imm d = IType.imm (IType.mk 5 10 (-2048) 2 OPCODE_LOAD).
Proof.
  apply (IType_roundtrip (IType.mk 5 10 (-2048) 2 OPCODE_LOAD));
    simpl; (lia || reflexivity).
Defined.

Section RoundTripS.
Variable self : SType.t.
Hypothesis rs1_width : 0 <= SType.rs1 self < 2 ^ 5.
Hypothesis rs2_width : 0 <= SType.rs2 self < 2 ^ 5.
Hypothesis funct3_width : 0 <= SType.funct3 self < 2 ^ 3.
Hypothesis imm_width : - 2 ^ 11 <= SType.imm self < 2 ^ 11.
Hypothesis opcode_s : SType.opcode self = OPCODE_STORE.

Lemma SType_opcode_width : 0 <= SType.opcode self < 2 ^ 7.
Proof. rewrite opcode_s. unfold OPCODE_STORE. lia. Qed.

Lemma SType_fields :
  extract_opcode (SType.encode self) = SType.opcode self
  /\ extract_rs1 (SType.encode self) = SType.rs1 self
  /\ extract_rs2 (SType.encode self) = SType.rs2 self
  /\ extract_funct3 (SType.encode self) = SType.funct3 self.
Proof.
  pose proof SType_opcode_width as Hop.
  clear opcode_s imm_width. destruct self. encode_unfold.
  repeat split; bits_eq.
Qed.

Lemma SType_imm : extract_imm_s (SType.encode self) = Ok (SType.imm self).
Proof.
  pose proof SType_opcode_width as Hop.
  unfold extract_imm_s. apply sign_extend_signed; [lia|exact imm_width|].
  clear opcode_s imm_width. destruct self. encode_unfold. bits_eq.
Qed.

(** X28: an S-type instruction with the STORE opcode, fields within their
    widths and an immediate of the signed 12-bit range decodes, after
    [encode()], with type "S" and the same opcode, [rs1], [rs2], [funct3]
    and immediate. *)
Lemma SType_roundtrip :
  exists d, decode_instr (encode (S self)) = Ok d
    /\ Decoded.type d = "S"
    /\ Decoded.opcode d = SType.opcode self
    /\ Decoded.rs1 d = SType.rs1 self
    /\ Decoded.rs2 d = SType.rs2 self
    /\ Decoded.funct3 d = SType.funct3 self
    /\ Decoded.imm d = SType.imm self.
Proof.
  destruct SType_fields as (Hop & Hrs1 & Hrs2 & Hf3).
  unfold encode. decode_unfold.
  rewrite Hop, Hrs1, Hrs2, Hf3, SType_imm, opcode_s. eval_cond.
  eexists. split; [reflexivity|]. repeat split.
Qed.
End RoundTripS.

Lemma SType_roundtrip_witness :
  exists d,
    decode_instr (encode (S (SType.mk 1 2 (-4) FUNCT3_SW OPCODE_STORE))) = Ok d
    /\ Decoded.type d = "S"
    /\ Decoded.opcode d = SType.opcode (SType.mk 1 2 (-4) FUNCT3_SW OPCODE_STORE)
    /\ Decoded.rs1 d = SType.rs1 (SType.mk 1 2 (-4) FUNCT3_SW OPCODE_STORE)
    /\ Decoded.rs2 d = SType.rs2 (SType.mk 1 2 (-4) FUNCT3_SW OPCODE_STORE)
    /\ Decoded.funct3 d = SType.funct3 (SType.mk 1 2 (-4) FUNCT3_SW OPCODE_STORE)
    /\ Decoded.imm d = SType.imm (SType.mk 1 2 (-4) FUNCT3_SW OPCODE_STORE).
Proof.
  apply (SType_roundtrip (SType.mk 1 2 (-4) FUNCT3_SW OPCODE_STORE));
    simpl; unfold FUNCT3_SW; (lia || reflexivity).
Defined.

Section RoundTripU.
Variable self : UType.t.
Hypothesis rd_width : 0 <= UType.rd self < 2 ^ 5.
Hypothesis imm_width : 0 <= UType.imm self < 2 ^ 20.
Hypothesis opcode_u : py_in (UType.opcode self) u_type_opcodes = true.

Lemma UType_opcode_cases :
  UType.opcode self = OPCODE_LUI \/ UType.opcode self = OPCODE_AUIPC.
Proof.
  revert opcode_u. unfold py_in, u_type_opcodes. cbn [existsb].
  intros Hin. repeat (apply orb_prop in Hin as [Hin|Hin]);
    first [discriminate | apply Z.eqb_eq in Hin; auto].
Qed.

Lemma UType_fields :
  extract_opcode (UType.encode self) = UType.opcode self
  /\ extract_rd (UType.encode self) = UType.rd self
  /\ extract_imm_u (UType.encode self) = UType.imm self.
Proof.
  assert (0 <= UType.opcode self < 2 ^ 7) as Hop
    by (destruct UType_opcode_cases as [-> | ->]; vm_compute;
        split; congruence).
  clear opcode_u. destruct self. encode_unfold.
  repeat split; bits_eq.
Qed.

(** X29: a U-type instruction with the LUI or AUIPC opcode, [rd] within 5
    bits and an immediate within [0, 2^20) decodes, after [encode()], with
    type "U" and the same opcode, [rd] and immediate. *)
Lemma UType_roundtrip :
  exists d, decode_instr (encode (U self)) = Ok d
    /\ Decoded.type d = "U"
    /\ Decoded.opcode d = UType.opcode self
    /\ Decoded.rd d = UType.rd self
    /\ Decoded.imm d = UType.imm self.
Proof.
  destruct UType_fields as (Hop & Hrd & Himm).
  unfold encode. decode_unfold.
  rewrite Hop, Hrd, Himm.
  destruct UType_opcode_cases as [-> | ->];
    eval_cond; (eexists; split; [reflexivity|]; repeat split).
Qed.
End RoundTripU.

Lemma UType_roundtrip_witness :
  exists d,
    decode_instr (encode (U (UType.mk 1 0xFFFFF OPCODE_AUIPC))) = Ok d
    /\ Decoded.type d = "U"
    /\ Decoded.opcode d = UType.opcode (UType.mk 1 0xFFFFF OPCODE_AUIPC)
    /\ Decoded.rd d = UType.rd (UType.mk 1 0xFFFFF OPCODE_AUIPC)
    /\ Decoded.imm d = UType.imm (UType.mk 1 0xFFFFF OPCODE_AUIPC).
Proof.
  apply (UType_roundtrip (UType.mk 1 0xFFFFF OPCODE_AUIPC));
    simpl; (lia || reflexivity).
Defined.

(** C2, on the code: [BType.encode] leaves word bit 31 clear for an
    immediate with bit 12 set, and word bit 7 clear for one with bit 11
    set; [JType.encode] leaves word bit 12 clear for an immediate with
    bit 12 set. *)
Theorem branch_jump_immediate_misplaced :
  (Z.testbit 4096 12 = true
   /\ Z.testbit (BType.encode (BType.mk 0 0 4096 0 OPCODE_BRANCH)) 31 = false)
  /\ (Z.testbit 2048 11 = true
      /\ Z.testbit (BType.encode (BType.mk 0 0 2048 0 OPCODE_BRANCH)) 7 = false)
  /\ (Z.testbit 4096 12 = true
      /\ Z.testbit (JType.encode (JType.mk 0 4096 OPCODE_JAL)) 12 = false).
Proof. repeat split. Qed.

(** C1, on the code: a B-type instruction with immediate 2048 decodes with
    immediate -4096, and a J-type instruction with immediate 2 decodes
    with immediate 8194. *)
Theorem roundtrip_fails_for_branch_and_jump :
  (exists d,
     decode_instr (encode (B (BType.mk 1 2 2048 0 OPCODE_BRANCH))) = Ok d
     /\ Decoded.type d = "B" /\ Decoded.imm d = -4096)
  /\ (exists d,
        decode_instr (encode (J (JType.mk 1 2 OPCODE_JAL))) = Ok d
        /\ Decoded.type d = "J" /\ Decoded.imm d = 8194).
Proof.
  split; (eexists; split; [vm_compute; reflexivity|]; split; reflexivity).
Qed.

End EncodeProofs.

(** * The repository's tests, on the model *)

Module Tests.
Import Constants Isa Regfile.

(** tests/test_isa.py *)

Example test_add_encoding :
  let encoded :=
    RType.encode (RType.mk 1 2 3 FUNCT3_ADD_SUB FUNCT7_NORMAL OPCODE_R_TYPE) in
  extract_opcode encoded = OPCODE_R_TYPE /\ extract_rd encoded = 1
  /\ extract_rs1 encoded = 2 /\ extract_rs2 encoded = 3
  /\ extract_funct3 encoded = FUNCT3_ADD_SUB
  /\ extract_funct7 encoded = FUNCT7_NORMAL.
Proof. repeat split. Qed.

Example test_addi_encoding :
  let encoded := IType.encode (IType.mk 5 10 100 FUNCT3_ADD_SUB OPCODE_ADDI) in
  extract_opcode encoded = OPCODE_ADDI /\ extract_rd encoded = 5
  /\ extract_rs1 encoded = 10 /\ extract_imm_i encoded = Ok 100
  /\ extract_funct3 encoded = FUNCT3_ADD_SUB.
Proof. repeat split. Qed.

Example test_sw_encoding :
  let encoded := SType.encode (SType.mk 1 2 4 FUNCT3_SW OPCODE_STORE) in
  extract_opcode encoded = OPCODE_STORE /\ extract_rs1 encoded = 1
  /\ extract_rs2 encoded = 2 /\ extract_imm_s encoded = Ok 4
  /\ extract_funct3 encoded = FUNCT3_SW.
Proof. repeat split. Qed.

Example test_beq_encoding :
  let encoded := BType.encode (BType.mk 1 2 16 FUNCT3_BEQ OPCODE_BRANCH) in
  extract_opcode encoded = OPCODE_BRANCH /\ extract_rs1 encoded = 1
  /\ extract_rs2 encoded = 2 /\ extract_imm_b encoded = Ok 16
  /\ extract_funct3 encoded = FUNCT3_BEQ.
Proof. repeat split. Qed.

Example test_jal_encoding :
  let encoded := JType.encode (JType.mk 1 2048 OPCODE_JAL) in
  extract_opcode encoded = OPCODE_JAL /\ extract_rd encoded = 1
  /\ extract_imm_j encoded = Ok 2048.
Proof. repeat split. Qed.

Example test_decode_add :
  decode_instr
    (RType.encode (RType.mk 1 2 3 FUNCT3_ADD_SUB FUNCT7_NORMAL OPCODE_R_TYPE))
  = Ok (Decoded.mk OPCODE_R_TYPE 1 2 3 0 0 0 "R" "ADD").
Proof. vm_compute. reflexivity. Qed.

Example test_decode_beq :
  Decoded.mnemonic
    <$> (match decode_instr
                 (BType.encode (BType.mk 1 2 16 FUNCT3_BEQ OPCODE_BRANCH)) with
         | Ok d => Some d
         | Raise _ => None
         end) = Some "BEQ".
Proof. vm_compute. reflexivity. Qed.

(** tests/test_regfile.py *)

Example test_read_x0 :
  rs1_data (step (init REG_WIDTH NUM_REGS) (mkInputs 0 0 0 0 0)).1 = 0.
Proof. reflexivity. Qed.

Example test_read_nonzero :
  rs1_data
    (step (step (init REG_WIDTH NUM_REGS)
                (mkInputs 0 0 5 42 CTRL_REG_WRITE_YES)).2
          (mkInputs 5 0 0 0 0)).1 = 42.
Proof. reflexivity. Qed.

Example test_write_ignored :
  rs1_data
    (step (step (init REG_WIDTH NUM_REGS)
                (mkInputs 0 0 0 999 CTRL_REG_WRITE_YES)).2
          (mkInputs 0 0 0 0 0)).1 = 0.
Proof. reflexivity. Qed.

Example test_get :
  get_register (init REG_WIDTH NUM_REGS) 7
  = Ok (Pyrtl.mkReg REG_WIDTH "x7" 0).
Proof. vm_compute. reflexivity. Qed.

Example test_get_range :
  get_register (init REG_WIDTH NUM_REGS) NUM_REGS
  = Raise (ValueError "Register index 32 out of range [0, 31]").
Proof. vm_compute. reflexivity. Qed.

End Tests.


(** * Further properties *)

(** ** [sign_extend] as two's complement *)

Module SignExtendFacts.
Import Constants Bits SignExtend.

(** The sign bit splits the residues modulo [2 ^ n] in two halves. *)
Lemma sign_bit_halves (value n : Z) :
  1 <= n ->
  if Z.testbit value (n - 1)
  then 2 ^ (n - 1) <= value mod 2 ^ n < 2 ^ n
  else 0 <= value mod 2 ^ n < 2 ^ (n - 1).
Proof.
  intros Hn.
  assert (2 ^ n = 2 * 2 ^ (n - 1)) as Hdouble.
  { replace n with (Z.succ (n - 1)) at 1 by lia. rewrite Z.pow_succ_r; lia. }
  pose proof (Z.pow_pos_nonneg 2 (n - 1)) as Hpos.
  pose proof (Z.mod_pos_bound value (2 ^ n)) as Hm.
  rewrite <- (Z.mod_pow2_bits_low value n (n - 1)) by lia.
  set (m := value mod 2 ^ n) in *.
  assert (0 <= m / 2 ^ (n - 1) < 2) as Hq.
  { split; [apply Z.div_pos; lia|apply Z.div_lt_upper_bound; lia]. }
  destruct (Z.testbit m (n - 1)) eqn:Hbit.
  - apply Z.testbit_true in Hbit; [|lia].
    rewrite Z.mod_small in Hbit by lia.
    destruct (Z.lt_ge_cases m (2 ^ (n - 1))) as [Hlt|Hge]; [|lia].
    rewrite Z.div_small in Hbit by lia. discriminate.
  - apply Z.testbit_false in Hbit; [|lia].
    rewrite Z.mod_small in Hbit by lia.
    apply Z.div_small_iff in Hbit; lia.
Qed.

(** What [sign_extend] returns for a count of at least 1. *)
Lemma sign_extend_value (value nbits : Z) :
  1 <= nbits ->
  exists v, sign_extend value nbits = Ok v
    /\ - 2 ^ (nbits - 1) <= v < 2 ^ (nbits - 1)
    /\ v mod 2 ^ nbits = value mod 2 ^ nbits.
Proof.
  intros Hn. rewrite sign_extend_ones by done.
  assert (2 ^ nbits = 2 * 2 ^ (nbits - 1)) as Hdouble.
  { replace nbits with (Z.succ (nbits - 1)) at 1 by lia.
    rewrite Z.pow_succ_r; lia. }
  pose proof (sign_bit_halves value nbits Hn) as Hhalf.
  rewrite Z.land_ones by lia.
  destruct (Z.testbit value (nbits - 1)).
  - rewrite lor_lnot_ones_sub by lia. eexists. split; [reflexivity|].
    split; [lia|].
    replace (value mod 2 ^ nbits - 2 ^ nbits)
      with (value mod 2 ^ nbits + (-1) * 2 ^ nbits) by lia.
    rewrite Z.mod_add by lia. apply Z.mod_mod. lia.
  - eexists. split; [reflexivity|]. split; [lia|]. apply Z.mod_mod. lia.
Qed.

(** Bit by bit: the low [nbits] bits are kept, the bits above repeat bit
    [nbits - 1]. *)
Lemma sign_extend_bits (value nbits : Z) :
  1 <= nbits ->
  exists v, sign_extend value nbits = Ok v
    /\ - 2 ^ (nbits - 1) <= v < 2 ^ (nbits - 1)
    /\ forall i, 0 <= i ->
         Z.testbit v i = Z.testbit value (Z.min i (nbits - 1)).
Proof.
  intros Hn. destruct (sign_extend_value value nbits Hn) as (v & Hv & Hr & Hm).
  exists v. split; [done|]. split; [done|].
  assert (forall i, 0 <= i < nbits -> Z.testbit v i = Z.testbit value i) as Hlow.
  { intros i Hi.
    rewrite <- (Z.mod_pow2_bits_low v nbits i), Hm by lia.
    apply Z.mod_pow2_bits_low. lia. }
  intros i Hi. destruct (Z.le_gt_cases i (nbits - 1)).
  - rewrite Z.min_l by lia. apply Hlow. lia.
  - rewrite Z.min_r by lia.
    rewrite (testbit_above_signed (nbits - 1) v i) by lia. apply Hlow. lia.
Qed.

(** Two integers of the signed range that agree modulo [2 ^ n] are equal. *)
Lemma signed_unique (n u v : Z) :
  1 <= n ->
  - 2 ^ (n - 1) <= u < 2 ^ (n - 1) -> - 2 ^ (n - 1) <= v < 2 ^ (n - 1) ->
  u mod 2 ^ n = v mod 2 ^ n -> u = v.
Proof.
  intros Hn Hu Hv Hmod.
  assert (2 ^ n = 2 * 2 ^ (n - 1)) as Hdouble.
  { replace n with (Z.succ (n - 1)) at 1 by lia. rewrite Z.pow_succ_r; lia. }
  assert ((u + 2 ^ (n - 1)) mod 2 ^ n = (v + 2 ^ (n - 1)) mod 2 ^ n) as Hshift.
  { rewrite (Z.add_mod u), (Z.add_mod v), Hmod by lia. done. }
  rewrite !Z.mod_small in Hshift by lia. lia.
Qed.

(** X1: for [nbits >= 1], [sign_extend(value, nbits)] returns the one integer of
    the signed range [-2^(nbits-1), 2^(nbits-1)) that is congruent to
    [value] modulo [2^nbits]. *)
Theorem sign_extend_twos_complement (value nbits u : Z) :
  1 <= nbits ->
  - 2 ^ (nbits - 1) <= u < 2 ^ (nbits - 1) ->
  u mod 2 ^ nbits = value mod 2 ^ nbits ->
  exists v, sign_extend value nbits = Ok v
    /\ - 2 ^ (nbits - 1) <= v < 2 ^ (nbits - 1)
    /\ v mod 2 ^ nbits = value mod 2 ^ nbits
    /\ u = v.
Proof.
  intros Hn Hu Hmod.
  destruct (sign_extend_value value nbits Hn) as (v & Hv & Hr & Hm).
  exists v. repeat split; try done; try lia.
  apply (signed_unique nbits); [done..|]. by rewrite Hm.
Qed.

Lemma sign_extend_twos_complement_witness :
  exists v, sign_extend 0x1FFE 13 = Ok v
    /\ - 2 ^ (13 - 1) <= v < 2 ^ (13 - 1)
    /\ v mod 2 ^ 13 = 0x1FFE mod 2 ^ 13
    /\ -2 = v.
Proof.
  apply (sign_extend_twos_complement 0x1FFE 13 (-2)).
  - lia.
  - lia.
  - reflexivity.
Defined.

(** X2: with a count below 1, [sign_extend] raises the [ValueError] of the
    shift [1 << (nbits - 1)], whatever the value. *)
Theorem sign_extend_negative_count (value nbits : Z) :
  nbits < 1 ->
  sign_extend value nbits = Raise (ValueError "negative shift count").
Proof.
  intros Hn. unfold sign_extend, py_lshift.
  destruct (Z.ltb_spec (nbits - 1) 0); [done|lia].
Qed.

Lemma sign_extend_negative_count_witness :
  sign_extend 0xFFF 0 = Raise (ValueError "negative shift count").
Proof. apply (sign_extend_negative_count 0xFFF 0). lia. Defined.

(** X3: a signed value of the range [-2^(nbits-1), 2^(nbits-1)) is recovered
    by [sign_extend] from its two's complement pattern [v mod 2^nbits], from
    its masked form [v & ((1 << nbits) - 1)], and from itself. *)
Theorem sign_extend_recovers_signed (v nbits : Z) :
  1 <= nbits -> - 2 ^ (nbits - 1) <= v < 2 ^ (nbits - 1) ->
  sign_extend (v mod 2 ^ nbits) nbits = Ok v
  /\ sign_extend (Z.land v (2 ^ nbits - 1)) nbits = Ok v
  /\ sign_extend v nbits = Ok v.
Proof.
  intros Hn Hv.
  replace (2 ^ nbits - 1) with (Z.ones nbits) by (rewrite Z.ones_equiv; lia).
  repeat split; apply sign_extend_signed; try done.
  - rewrite !Z.land_ones by lia. apply Z.mod_mod. lia.
  - rewrite !Z.land_ones by lia. apply Z.mod_mod. lia.
Qed.

Lemma sign_extend_recovers_signed_witness :
  sign_extend ((-100) mod 2 ^ 12) 12 = Ok (-100)
  /\ sign_extend (Z.land (-100) (2 ^ 12 - 1)) 12 = Ok (-100)
  /\ sign_extend (-100) 12 = Ok (-100).
Proof. apply (sign_extend_recovers_signed (-100) 12); lia. Defined.

(** X4: sign extension is idempotent: extending the result again, with the
    same count, returns it unchanged. *)
Theorem sign_extend_idempotent (value nbits : Z) :
  1 <= nbits ->
  (v <- sign_extend value nbits ;; sign_extend v nbits)
  = sign_extend value nbits.
Proof.
  intros Hn. destruct (sign_extend_value value nbits Hn) as (v & Hv & Hr & Hm).
  rewrite Hv. simpl. by apply sign_extend_signed.
Qed.

Lemma sign_extend_idempotent_witness :
  (v <- sign_extend 0xABCDE 21 ;; sign_extend v 21) = sign_extend 0xABCDE 21.
Proof. apply (sign_extend_idempotent 0xABCDE 21). lia. Defined.

End SignExtendFacts.

(** ** Where the extractors read the immediates *)

Module DecoderFacts.
Import Constants Isa CodecSpec Bits SignExtend SignExtendFacts.

Lemma extract_imm_raw (instr : Z) :
  extract_imm_i instr = sign_extend (imm_i_raw instr) 12
  /\ extract_imm_s instr = sign_extend (imm_s_raw instr) 12
  /\ extract_imm_b instr = sign_extend (imm_b_raw instr) 13
  /\ extract_imm_j instr = sign_extend (imm_j_raw instr) 21.
Proof. repeat split. Qed.

Ltac raw_unfold :=
  unfold imm_i_raw, imm_s_raw, imm_b_raw, imm_j_raw in *; masks; shifts.

(** The result of an extractor, from the bits of its pattern. *)
Ltac extracted v Hv Hrange Hbits :=
  match goal with
  | |- context [sign_extend ?p ?n] =>
      destruct (sign_extend_bits p n ltac:(lia)) as (v & Hv & Hrange & Hbits);
      exists v; split; [exact Hv|]; split; [exact Hrange|]
  end.

Ltac bit_of Hbits :=
  intros; rewrite Hbits by lia; rewrite Z.min_l by lia; raw_unfold; bitblast.

(** X5: [extract_imm_i] returns, for every word, a value of the signed 12-bit
    range whose bits 11..0 are the word's bits 31..20. *)
Theorem extract_imm_i_layout (instr : Z) :
  exists v, extract_imm_i instr = Ok v
    /\ - 2 ^ (12 - 1) <= v < 2 ^ (12 - 1)
    /\ forall i, 0 <= i <= 11 -> Z.testbit v i = Z.testbit instr (i + 20).
Proof.
  destruct (extract_imm_raw instr) as (-> & _).
  extracted v Hv Hrange Hbits. bit_of Hbits.
Qed.

(** X6: [extract_imm_s] returns a value of the signed 12-bit range whose bits
    4..0 are the word's bits 11..7 and whose bits 11..5 are the word's bits
    31..25. *)
Theorem extract_imm_s_layout (instr : Z) :
  exists v, extract_imm_s instr = Ok v
    /\ - 2 ^ (12 - 1) <= v < 2 ^ (12 - 1)
    /\ (forall i, 0 <= i <= 4 -> Z.testbit v i = Z.testbit instr (i + 7))
    /\ (forall i, 5 <= i <= 11 -> Z.testbit v i = Z.testbit instr (i + 20)).
Proof.
  destruct (extract_imm_raw instr) as (_ & -> & _).
  extracted v Hv Hrange Hbits. split; bit_of Hbits.
Qed.

(** X7: [extract_imm_b] returns a value of the signed 13-bit range with bit 0
    clear, bits 4..1 from the word's bits 11..8, bits 10..5 from bits
    30..25, bit 11 from bit 7 and bit 12 from bit 31. *)
Theorem extract_imm_b_layout (instr : Z) :
  exists v, extract_imm_b instr = Ok v
    /\ - 2 ^ (13 - 1) <= v < 2 ^ (13 - 1)
    /\ Z.testbit v 0 = false
    /\ (forall i, 1 <= i <= 4 -> Z.testbit v i = Z.testbit instr (i + 7))
    /\ (forall i, 5 <= i <= 10 -> Z.testbit v i = Z.testbit instr (i + 20))
    /\ Z.testbit v 11 = Z.testbit instr 7
    /\ Z.testbit v 12 = Z.testbit instr 31.
Proof.
  destruct (extract_imm_raw instr) as (_ & _ & -> & _).
  extracted v Hv Hrange Hbits. repeat split; bit_of Hbits.
Qed.

(** X8: [extract_imm_j] returns a value of the signed 21-bit range with bit 0
    clear, bits 10..1 from the word's bits 30..21, bit 11 from bit 20, bits
    19..12 from bits 19..12 and bit 20 from bit 31. *)
Theorem extract_imm_j_layout (instr : Z) :
  exists v, extract_imm_j instr = Ok v
    /\ - 2 ^ (21 - 1) <= v < 2 ^ (21 - 1)
    /\ Z.testbit v 0 = false
    /\ (forall i, 1 <= i <= 10 -> Z.testbit v i = Z.testbit instr (i + 20))
    /\ Z.testbit v 11 = Z.testbit instr 20
    /\ (forall i, 12 <= i <= 19 -> Z.testbit v i = Z.testbit instr i)
    /\ Z.testbit v 20 = Z.testbit instr 31.
Proof.
  destruct (extract_imm_raw instr) as (_ & _ & _ & ->).
  extracted v Hv Hrange Hbits. repeat split; bit_of Hbits.
Qed.

End DecoderFacts.

(** ** The decoded record, field by field *)

Module CodecFacts.
Import Constants Isa CodecSpec Bits SignExtend SignExtendFacts DecodeProofs
       EncodeProofs DecoderFacts.

(** [decode_instr] by cases on the opcode. *)
Lemma decode_instr_cases (w : Z) :
  exists d, decode_instr w = Ok d
    /\ Decoded.opcode d = extract_opcode w
    /\ Decoded.rd d = extract_rd w
    /\ Decoded.rs1 d = extract_rs1 w
    /\ Decoded.rs2 d = extract_rs2 w
    /\ Decoded.funct3 d = extract_funct3 w
    /\ Decoded.funct7 d = extract_funct7 w
    /\ Decoded.mnemonic d =
         dict_get mnemonic_map
           (extract_opcode w, extract_funct3 w,
            if String.eqb (Decoded.type d) "R" then extract_funct7 w else 0)
           "UNKNOWN"
    /\ ((extract_opcode w = OPCODE_R_TYPE
         /\ Decoded.type d = "R" /\ Decoded.imm d = 0)
        \/ (py_in (extract_opcode w) i_type_opcodes = true
            /\ Decoded.type d = "I" /\ extract_imm_i w = Ok (Decoded.imm d))
        \/ (extract_opcode w = OPCODE_STORE
            /\ Decoded.type d = "S" /\ extract_imm_s w = Ok (Decoded.imm d))
        \/ (extract_opcode w = OPCODE_BRANCH
            /\ Decoded.type d = "B" /\ extract_imm_b w = Ok (Decoded.imm d))
        \/ (py_in (extract_opcode w) u_type_opcodes = true
            /\ Decoded.type d = "U" /\ Decoded.imm d = extract_imm_u w)
        \/ (extract_opcode w = OPCODE_JAL
            /\ Decoded.type d = "J" /\ extract_imm_j w = Ok (Decoded.imm d))
        \/ (py_in (extract_opcode w) recognized_opcodes = false
            /\ Decoded.type d = "" /\ Decoded.imm d = 0)).
Proof.
  decode_unfold.
  destruct (extract_imm_i_ok w) as [vi Hi].
  destruct (extract_imm_s_ok w) as [vs Hs].
  destruct (extract_imm_b_ok w) as [vb Hb].
  destruct (extract_imm_j_ok w) as [vj Hj].
  rewrite Hi, Hs, Hb, Hj.
  destruct (Z.eqb_spec (extract_opcode w) OPCODE_R_TYPE) as [Hr|Hr];
    [eexists; repeat (split; [reflexivity|]); left; done|].
  destruct (py_in (extract_opcode w) i_type_opcodes) eqn:Hit;
    [eexists; repeat (split; [reflexivity|]); right; left; done|].
  destruct (Z.eqb_spec (extract_opcode w) OPCODE_STORE) as [Hst|Hst];
    [eexists; repeat (split; [reflexivity|]); do 2 right; left; done|].
  destruct (Z.eqb_spec (extract_opcode w) OPCODE_BRANCH) as [Hbr|Hbr];
    [eexists; repeat (split; [reflexivity|]); do 3 right; left; done|].
  destruct (py_in (extract_opcode w) u_type_opcodes) eqn:Hut;
    [eexists; repeat (split; [reflexivity|]); do 4 right; left; done|].
  destruct (Z.eqb_spec (extract_opcode w) OPCODE_JAL) as [Hjal|Hjal];
    [eexists; repeat (split; [reflexivity|]); do 5 right; left; done|].
  eexists. repeat (split; [reflexivity|]). do 6 right.
  split; [|done].
  unfold recognized_opcodes, py_in in *. cbn [existsb].
  rewrite !existsb_app, Hit, Hut. cbn [existsb orb].
  apply Z.eqb_neq in Hr, Hst, Hbr, Hjal. by rewrite Hr, Hst, Hbr, Hjal.
Qed.

Lemma land_ones_range (a n : Z) : 0 <= n -> 0 <= Z.land a (Z.ones n) < 2 ^ n.
Proof.
  intros Hn. rewrite Z.land_ones by done. apply Z.mod_pos_bound. lia.
Qed.

(** X9: whatever the field values, [encode()] returns a 32-bit word. *)
Theorem encode_word_range (instr : Instr) : 0 <= encode instr < 2 ^ 32.
Proof.
  destruct instr as [[]|[]|[]|[]|[]|[]]; encode_unfold;
    apply land_ones_range; lia.
Qed.

(** The extractors read bits 31..0 only. *)
Lemma extract_low32 (w : Z) :
  extract_opcode (Z.land w 0xFFFFFFFF) = extract_opcode w
  /\ extract_rd (Z.land w 0xFFFFFFFF) = extract_rd w
  /\ extract_rs1 (Z.land w 0xFFFFFFFF) = extract_rs1 w
  /\ extract_rs2 (Z.land w 0xFFFFFFFF) = extract_rs2 w
  /\ extract_funct3 (Z.land w 0xFFFFFFFF) = extract_funct3 w
  /\ extract_funct7 (Z.land w 0xFFFFFFFF) = extract_funct7 w
  /\ extract_imm_u (Z.land w 0xFFFFFFFF) = extract_imm_u w
  /\ extract_imm_i (Z.land w 0xFFFFFFFF) = extract_imm_i w
  /\ extract_imm_s (Z.land w 0xFFFFFFFF) = extract_imm_s w
  /\ extract_imm_b (Z.land w 0xFFFFFFFF) = extract_imm_b w
  /\ extract_imm_j (Z.land w 0xFFFFFFFF) = extract_imm_j w.
Proof.
  unfold extract_imm_i, extract_imm_s, extract_imm_b, extract_imm_j.
  encode_unfold.
  repeat split;
    try match goal with
        | |- sign_extend _ _ = sign_extend _ _ => f_equal
        end;
    bits_eq.
Qed.

(** X10: [decode_instr] looks at bits 31..0 of its argument only: an integer
    and its low 32 bits decode alike. *)
Theorem decode_instr_low32 (w : Z) :
  decode_instr (Z.land w 0xFFFFFFFF) = decode_instr w.
Proof.
  destruct (extract_low32 w)
    as (Hop & Hrd & Hrs1 & Hrs2 & Hf3 & Hf7 & Hu & Hi & Hs & Hb & Hj).
  unfold decode_instr.
  by rewrite Hop, Hrd, Hrs1, Hrs2, Hf3, Hf7, Hu, Hi, Hs, Hb, Hj.
Qed.

(** The range of an extracted immediate. *)
Lemma sign_extend_result (p n v : Z) :
  1 <= n -> sign_extend p n = Ok v ->
  - 2 ^ (n - 1) <= v < 2 ^ (n - 1) /\ v mod 2 ^ n = p mod 2 ^ n.
Proof.
  intros Hn Hv. destruct (sign_extend_value p n Hn) as (v' & Hv' & Hr & Hm).
  rewrite Hv in Hv'. by injection Hv' as ->.
Qed.

(** X11: every decoded record has its opcode and [funct7] within 7 bits, its
    register indices within 5 bits, [funct3] within 3 bits, and an immediate
    of the signed 21-bit range. *)
Theorem decoded_field_bounds (w : Z) :
  exists d, decode_instr w = Ok d
    /\ 0 <= Decoded.opcode d < 2 ^ 7
    /\ 0 <= Decoded.rd d < 2 ^ 5
    /\ 0 <= Decoded.rs1 d < 2 ^ 5
    /\ 0 <= Decoded.rs2 d < 2 ^ 5
    /\ 0 <= Decoded.funct3 d < 2 ^ 3
    /\ 0 <= Decoded.funct7 d < 2 ^ 7
    /\ - 2 ^ 20 <= Decoded.imm d < 2 ^ 20.
Proof.
  destruct (decode_instr_cases w)
    as (d & Hd & Ho & Hrd & Hrs1 & Hrs2 & Hf3 & Hf7 & _ & Hcases).
  exists d. split; [done|]. rewrite Ho, Hrd, Hrs1, Hrs2, Hf3, Hf7.
  repeat (split; [encode_unfold; apply land_ones_range; lia|]).
  destruct Hcases as [(_ & _ & ->)|[(_ & _ & Hi)|[(_ & _ & Hi)|[(_ & _ & Hi)|
    [(_ & _ & ->)|[(_ & _ & Hi)|(_ & _ & ->)]]]]]]; try lia.
  - apply sign_extend_result in Hi as [Hr _]; lia.
  - apply sign_extend_result in Hi as [Hr _]; lia.
  - apply sign_extend_result in Hi as [Hr _]; lia.
  - encode_unfold. pose proof (land_ones_range (Z.shiftr w 12) 20). lia.
  - apply sign_extend_result in Hi as [Hr _]; lia.
Qed.

(** The opcodes of the two tuples, and their place among the recognized
    ones. *)
Lemma u_type_opcodes_inv (op : Z) :
  py_in op u_type_opcodes = true -> op = OPCODE_LUI \/ op = OPCODE_AUIPC.
Proof.
  unfold py_in, u_type_opcodes. cbn [existsb]. intros Hin.
  repeat (apply orb_prop in Hin as [Hin|Hin]);
    first [discriminate | apply Z.eqb_eq in Hin; auto].
Qed.

(** Settles a goal from facts about one opcode that contradict each other,
    or that determine it. *)
Ltac opcode_facts :=
  repeat match goal with
    | H : py_in _ i_type_opcodes = true |- _ =>
        apply i_type_opcodes_inv in H as [H|[H|H]]
    | H : py_in _ u_type_opcodes = true |- _ =>
        apply u_type_opcodes_inv in H as [H|H]
    end;
  repeat match goal with
    | H : extract_opcode ?w = _ |- _ => rewrite H in *; clear H
    end;
  try discriminate; try done; try (vm_compute; congruence).

(** X12: the type tag of a decoded record is a function of the opcode: "R"
    for 0b0110011, "I" for the opcodes of the I-type tuple, "S" for STORE,
    "B" for BRANCH, "U" for LUI and AUIPC, "J" for JAL, and empty for every
    other opcode; records of type "R" or of the empty type have [imm = 0]. *)
Theorem type_tag_by_opcode (w : Z) :
  exists d, decode_instr w = Ok d
    /\ (Decoded.type d = "R" <-> extract_opcode w = OPCODE_R_TYPE)
    /\ (Decoded.type d = "I"
        <-> py_in (extract_opcode w) i_type_opcodes = true)
    /\ (Decoded.type d = "S" <-> extract_opcode w = OPCODE_STORE)
    /\ (Decoded.type d = "B" <-> extract_opcode w = OPCODE_BRANCH)
    /\ (Decoded.type d = "U"
        <-> py_in (extract_opcode w) u_type_opcodes = true)
    /\ (Decoded.type d = "J" <-> extract_opcode w = OPCODE_JAL)
    /\ (Decoded.type d = ""
        <-> py_in (extract_opcode w) recognized_opcodes = false)
    /\ (Decoded.type d = "R" \/ Decoded.type d = "" -> Decoded.imm d = 0).
Proof.
  destruct (decode_instr_cases w) as (d & Hd & _ & _ & _ & _ & _ & _ & _ & Hc).
  exists d. split; [done|].
  destruct Hc as [(Hop & Hty & Him)|[(Hop & Hty & Him)|[(Hop & Hty & Him)|
    [(Hop & Hty & Him)|[(Hop & Hty & Him)|[(Hop & Hty & Him)|
    (Hop & Hty & Him)]]]]]]; rewrite Hty;
    repeat split; intros; try discriminate; try done;
    try (destruct_or?; discriminate);
    try (exfalso; opcode_facts; fail).
Qed.

(** An encoder takes its immediate modulo 2 to the declared width. *)
Lemma encode_imm_congr_I (rd rs1 f3 op v v' : Z) :
  v mod 2 ^ 12 = v' mod 2 ^ 12 ->
  encode (I (IType.mk rd rs1 v f3 op)) = encode (I (IType.mk rd rs1 v' f3 op)).
Proof.
  intros Hm.
  rewrite <- (encode_reduce_fields (I (IType.mk rd rs1 v f3 op))),
          <- (encode_reduce_fields (I (IType.mk rd rs1 v' f3 op))).
  cbn [reduce_fields]. by rewrite Hm.
Qed.

Lemma encode_imm_congr_S (rs1 rs2 f3 op v v' : Z) :
  v mod 2 ^ 12 = v' mod 2 ^ 12 ->
  encode (S (SType.mk rs1 rs2 v f3 op)) = encode (S (SType.mk rs1 rs2 v' f3 op)).
Proof.
  intros Hm.
  rewrite <- (encode_reduce_fields (S (SType.mk rs1 rs2 v f3 op))),
          <- (encode_reduce_fields (S (SType.mk rs1 rs2 v' f3 op))).
  cbn [reduce_fields]. by rewrite Hm.
Qed.

Lemma in_place_recognized (op : Z) :
  py_in op (OPCODE_R_TYPE :: i_type_opcodes ++ [OPCODE_STORE] ++ u_type_opcodes)
  = true ->
  py_in op recognized_opcodes = true.
Proof.
  unfold py_in, recognized_opcodes, i_type_opcodes, u_type_opcodes.
  cbn [existsb app]. intros Hin.
  repeat (apply orb_prop in Hin as [Hin|Hin]);
    first [discriminate | apply Z.eqb_eq in Hin; subst op; reflexivity].
Qed.

(** X13: a 32-bit word whose opcode is that of the R format, of the I-type
    tuple, STORE, LUI or AUIPC is recovered by encoding the instruction its
    decoded record describes. *)
Theorem decode_then_encode (w : Z) :
  0 <= w < 2 ^ 32 ->
  py_in (extract_opcode w)
        (OPCODE_R_TYPE :: i_type_opcodes ++ [OPCODE_STORE] ++ u_type_opcodes)
  = true ->
  exists d, decode_instr w = Ok d
    /\ encode <$> instr_of_decoded d = Some w.
Proof.
  intros Hw Hop.
  destruct (decode_instr_cases w)
    as (d & Hd & Ho & Hrd & Hrs1 & Hrs2 & Hf3 & Hf7 & _ & Hc).
  exists d. split; [done|]. unfold instr_of_decoded.
  destruct Hc as [(_ & Hty & Him)|[(_ & Hty & Him)|[(_ & Hty & Him)|
    [(Hb & Hty & Him)|[(_ & Hty & Him)|[(Hj & Hty & Him)|
    (Hu & Hty & Him)]]]]]]; rewrite Hty; cbn [String.eqb Ascii.eqb Bool.eqb];
    cbn [fmap option_fmap option_map]; rewrite ?Ho, ?Hrd, ?Hrs1, ?Hrs2, ?Hf3, ?Hf7.
  - f_equal. encode_unfold. bits_eq.
  - f_equal. apply sign_extend_result in Him as [_ Hm]; [|lia].
    rewrite (encode_imm_congr_I _ _ _ _ _ _ Hm).
    encode_unfold. raw_unfold. bits_eq.
  - f_equal. apply sign_extend_result in Him as [_ Hm]; [|lia].
    rewrite (encode_imm_congr_S _ _ _ _ _ _ Hm).
    encode_unfold. raw_unfold. bits_eq.
  - exfalso. rewrite Hb in Hop. vm_compute in Hop. discriminate.
  - f_equal. rewrite Him. encode_unfold. bits_eq.
  - exfalso. rewrite Hj in Hop. vm_compute in Hop. discriminate.
  - apply in_place_recognized in Hop. congruence.
Qed.

Lemma decode_then_encode_witness :
  exists d, decode_instr 0xFE010113 = Ok d
    /\ encode <$> instr_of_decoded d = Some 0xFE010113.
Proof.
  apply (decode_then_encode 0xFE010113).
  - lia.
  - reflexivity.
Defined.

(** *** Branch and jump immediates through [encode] and [decode_instr] *)

(** Signed values are equal when they agree up to their sign bit. *)
Lemma signed_eq_bits (l a b : Z) :
  0 <= l -> - 2 ^ l <= a < 2 ^ l -> - 2 ^ l <= b < 2 ^ l ->
  (forall i, 0 <= i <= l -> Z.testbit a i = Z.testbit b i) -> a = b.
Proof.
  intros Hl Ha Hb Hbits. apply Z.bits_inj'. intros i Hi.
  destruct (Z.le_gt_cases i l); [apply Hbits; lia|].
  rewrite (testbit_above_signed l a i), (testbit_above_signed l b i) by lia.
  apply Hbits. lia.
Qed.

(** A signed value with a clear sign bit is not negative. *)
Lemma nonneg_of_sign_clear (l a : Z) :
  0 <= l -> - 2 ^ l <= a < 2 ^ l -> Z.testbit a l = false -> 0 <= a.
Proof.
  intros Hl Ha Hbit. destruct (Z.le_gt_cases 0 a) as [|Hneg]; [done|].
  assert (0 <= Z.lnot a < 2 ^ l) as Hn by (unfold Z.lnot; lia).
  assert (Z.testbit (Z.lnot a) l = false) as Hnbit
    by (apply (testbit_above l); lia).
  rewrite Z.lnot_spec in Hnbit by lia. rewrite Hbit in Hnbit. discriminate.
Qed.

Lemma even_bit0 (a : Z) : Z.even a = true <-> Z.testbit a 0 = false.
Proof.
  rewrite Z.bit0_odd, <- Z.negb_odd. by destruct (Z.odd a).
Qed.

Section BranchRoundTrip.
Variable self : BType.t.
Hypothesis rs1_width : 0 <= BType.rs1 self < 2 ^ 5.
Hypothesis rs2_width : 0 <= BType.rs2 self < 2 ^ 5.
Hypothesis funct3_width : 0 <= BType.funct3 self < 2 ^ 3.
Hypothesis imm_range : - 2 ^ 12 <= BType.imm self < 2 ^ 12.
Hypothesis opcode_b : BType.opcode self = OPCODE_BRANCH.

Lemma BType_opcode_width : 0 <= BType.opcode self < 2 ^ 7.
Proof. rewrite opcode_b. unfold OPCODE_BRANCH. lia. Qed.

Lemma BType_fields :
  extract_opcode (BType.encode self) = BType.opcode self
  /\ extract_rs1 (BType.encode self) = BType.rs1 self
  /\ extract_rs2 (BType.encode self) = BType.rs2 self
  /\ extract_funct3 (BType.encode self) = BType.funct3 self.
Proof.
  pose proof BType_opcode_width as Hop.
  clear opcode_b imm_range. destruct self. encode_unfold.
  repeat split; bits_eq.
Qed.

(** The pattern [extract_imm_b] assembles from an encoded branch. *)
Lemma BType_raw_bits :
  Z.testbit (imm_b_raw (BType.encode self)) 0 = false
  /\ (forall i, 1 <= i <= 10 ->
        Z.testbit (imm_b_raw (BType.encode self)) i
        = Z.testbit (BType.imm self) i)
  /\ Z.testbit (imm_b_raw (BType.encode self)) 11
     = Z.testbit (BType.imm self) 0
  /\ Z.testbit (imm_b_raw (BType.encode self)) 12
     = Z.testbit (BType.imm self) 11.
Proof.
  pose proof BType_opcode_width as Hop.
  clear opcode_b imm_range. destruct self. encode_unfold. raw_unfold.
  repeat split; intros; bitblast.
Qed.

Lemma BType_imm_decoded :
  exists v, extract_imm_b (BType.encode self) = Ok v
    /\ (v = BType.imm self
        <-> 0 <= BType.imm self < 2 ^ 11 /\ Z.even (BType.imm self) = true).
Proof.
  destruct BType_raw_bits as (H0 & Hmid & H11 & H12).
  destruct (extract_imm_raw (BType.encode self)) as (_ & _ & -> & _).
  destruct (sign_extend_bits (imm_b_raw (BType.encode self)) 13)
    as (v & Hv & Hrange & Hbits); [lia|].
  exists v. split; [done|]. rewrite even_bit0. split.
  - intros ->.
    pose proof (Hbits 0) as B0. rewrite Z.min_l, H0 in B0 by lia.
    pose proof (Hbits 11) as B11. rewrite Z.min_l, H11 in B11 by lia.
    pose proof (Hbits 12) as B12. rewrite Z.min_l, H12 in B12 by lia.
    specialize (B0 ltac:(lia)). specialize (B11 ltac:(lia)).
    specialize (B12 ltac:(lia)). rewrite B0 in B11. rewrite B11 in B12.
    split; [|done].
    pose proof (nonneg_of_sign_clear 12 _ ltac:(lia) imm_range B12) as Hpos.
    pose proof (sign_bit_halves (BType.imm self) 12 ltac:(lia)) as Hhalf.
    change (12 - 1) with 11 in Hhalf. rewrite B11 in Hhalf.
    rewrite Z.mod_small in Hhalf by lia. lia.
  - intros [Hsmall Heven].
    assert (0 <= BType.imm self < 2 ^ 12) as Hsmall' by lia.
    apply (signed_eq_bits 12); [lia|exact Hrange|exact imm_range|].
    intros i Hi. rewrite Hbits, Z.min_l by lia.
    assert (i = 0 \/ 1 <= i <= 10 \/ i = 11 \/ i = 12) as Hcase by lia.
    destruct Hcase as [ -> | [Hmidi | [ -> | -> ]]].
    + by rewrite H0, Heven.
    + by apply Hmid.
    + rewrite H11, Heven. symmetry. apply (testbit_above 11); [done|lia].
    + rewrite H12. rewrite !(testbit_above 11 (BType.imm self)); [done|..];
        (done || lia).
Qed.

(** X14: for a branch with fields within their widths, the opcode, [rs1],
    [rs2] and [funct3] come back from [decode_instr], and the immediate
    comes back exactly when it is even and within [0, 2048). *)
Theorem BType_roundtrip :
  exists d, decode_instr (encode (B self)) = Ok d
    /\ Decoded.type d = "B"
    /\ Decoded.opcode d = BType.opcode self
    /\ Decoded.rs1 d = BType.rs1 self
    /\ Decoded.rs2 d = BType.rs2 self
    /\ Decoded.funct3 d = BType.funct3 self
    /\ (Decoded.imm d = BType.imm self
        <-> 0 <= BType.imm self < 2 ^ 11 /\ Z.even (BType.imm self) = true).
Proof.
  destruct BType_fields as (Hop & Hrs1 & Hrs2 & Hf3).
  destruct BType_imm_decoded as (v & Hv & Hiff).
  unfold encode. decode_unfold.
  rewrite Hop, Hrs1, Hrs2, Hf3, Hv, opcode_b. eval_cond.
  eexists. split; [reflexivity|]. repeat (split; [reflexivity|]). exact Hiff.
Qed.
End BranchRoundTrip.

Lemma BType_roundtrip_witness :
  exists d,
    decode_instr (encode (B (BType.mk 1 2 16 FUNCT3_BEQ OPCODE_BRANCH))) = Ok d
    /\ Decoded.type d = "B"
    /\ Decoded.opcode d = BType.opcode (BType.mk 1 2 16 FUNCT3_BEQ OPCODE_BRANCH)
    /\ Decoded.rs1 d = BType.rs1 (BType.mk 1 2 16 FUNCT3_BEQ OPCODE_BRANCH)
    /\ Decoded.rs2 d = BType.rs2 (BType.mk 1 2 16 FUNCT3_BEQ OPCODE_BRANCH)
    /\ Decoded.funct3 d
       = BType.funct3 (BType.mk 1 2 16 FUNCT3_BEQ OPCODE_BRANCH)
    /\ (Decoded.imm d = BType.imm (BType.mk 1 2 16 FUNCT3_BEQ OPCODE_BRANCH)
        <-> 0 <= BType.imm (BType.mk 1 2 16 FUNCT3_BEQ OPCODE_BRANCH) < 2 ^ 11
            /\ Z.even (BType.imm (BType.mk 1 2 16 FUNCT3_BEQ OPCODE_BRANCH))
               = true).
Proof.
  apply (BType_roundtrip (BType.mk 1 2 16 FUNCT3_BEQ OPCODE_BRANCH));
    simpl; unfold FUNCT3_BEQ; (lia || reflexivity).
Defined.

Section JumpRoundTrip.
Variable self : JType.t.
Hypothesis rd_width : 0 <= JType.rd self < 2 ^ 5.
Hypothesis imm_range : - 2 ^ 20 <= JType.imm self < 2 ^ 20.
Hypothesis opcode_j : JType.opcode self = OPCODE_JAL.

Lemma JType_opcode_width : 0 <= JType.opcode self < 2 ^ 7.
Proof. rewrite opcode_j. unfold OPCODE_JAL. lia. Qed.

Lemma JType_fields :
  extract_opcode (JType.encode self) = JType.opcode self
  /\ extract_rd (JType.encode self) = JType.rd self.
Proof.
  pose proof JType_opcode_width as Hop.
  clear opcode_j imm_range. destruct self. encode_unfold.
  repeat split; bits_eq.
Qed.

(** The pattern [extract_imm_j] assembles from an encoded jump. *)
Lemma JType_raw_bits :
  Z.testbit (imm_j_raw (JType.encode self)) 0 = false
  /\ (forall i, 1 <= i <= 11 ->
        Z.testbit (imm_j_raw (JType.encode self)) i
        = Z.testbit (JType.imm self) i)
  /\ (forall i, 12 <= i <= 19 ->
        Z.testbit (imm_j_raw (JType.encode self)) i
        = Z.testbit (JType.imm self) (i - 12))
  /\ Z.testbit (imm_j_raw (JType.encode self)) 20
     = Z.testbit (JType.imm self) 20.
Proof.
  pose proof JType_opcode_width as Hop.
  clear opcode_j imm_range. destruct self. encode_unfold. raw_unfold.
  repeat split; intros; bitblast.
Qed.

Lemma JType_imm_decoded :
  exists v, extract_imm_j (JType.encode self) = Ok v
    /\ (v = JType.imm self
        <-> Z.even (JType.imm self) = true
            /\ Z.land (Z.shiftr (JType.imm self) 12) 0xFF
               = Z.land (JType.imm self) 0xFF).
Proof.
  destruct JType_raw_bits as (H0 & Hlow & Hmid & H20).
  destruct (extract_imm_raw (JType.encode self)) as (_ & _ & _ & ->).
  destruct (sign_extend_bits (imm_j_raw (JType.encode self)) 21)
    as (v & Hv & Hrange & Hbits); [lia|].
  exists v. split; [done|]. rewrite even_bit0.
  change 0xFF with (Z.ones 8). split.
  - intros ->. split.
    + rewrite <- H0. rewrite <- (Z.min_l 0 (21 - 1)) at 2 by lia.
      apply Hbits. lia.
    + apply Z.bits_inj'. intros i Hi.
      rewrite !Z.land_spec, Z.shiftr_spec, Z.testbit_ones by lia.
      destruct (Z.ltb_spec i 8) as [Hlt|Hge]; [|by rewrite !andb_false_r].
      f_equal. rewrite (Hbits (i + 12)), Z.min_l, Hmid by lia.
      f_equal. lia.
  - intros [Heven Hfold].
    assert (forall i, 12 <= i <= 19 ->
            Z.testbit (JType.imm self) (i - 12) = Z.testbit (JType.imm self) i)
      as Hsame.
    { intros i Hi.
      assert (Z.testbit (Z.land (Z.shiftr (JType.imm self) 12) (Z.ones 8)) (i - 12)
              = Z.testbit (Z.land (JType.imm self) (Z.ones 8)) (i - 12)) as Hb
        by (by rewrite Hfold).
      rewrite !Z.land_spec, Z.shiftr_spec, Z.testbit_ones in Hb by lia.
      replace (i - 12 + 12) with i in Hb by lia.
      destruct (Z.leb_spec 0 (i - 12)); [|lia].
      destruct (Z.ltb_spec (i - 12) 8); [|lia].
      rewrite !andb_true_r in Hb. done. }
    apply (signed_eq_bits 20); [lia|exact Hrange|exact imm_range|].
    intros i Hi. rewrite Hbits, Z.min_l by lia.
    assert (i = 0 \/ 1 <= i <= 11 \/ 12 <= i <= 19 \/ i = 20) as Hcase by lia.
    destruct Hcase as [ -> | [Hlowi | [Hmidi | -> ]]].
    + by rewrite H0, Heven.
    + by apply Hlow.
    + rewrite Hmid by done. by apply Hsame.
    + exact H20.
Qed.

(** X15: for a jump with fields within their widths, the opcode and [rd]
    come back from [decode_instr], and the immediate comes back exactly
    when it is even and its bits 19..12 equal its bits 7..0. *)
Theorem JType_roundtrip :
  exists d, decode_instr (encode (J self)) = Ok d
    /\ Decoded.type d = "J"
    /\ Decoded.opcode d = JType.opcode self
    /\ Decoded.rd d = JType.rd self
    /\ (Decoded.imm d = JType.imm self
        <-> Z.even (JType.imm self) = true
            /\ Z.land (Z.shiftr (JType.imm self) 12) 0xFF
               = Z.land (JType.imm self) 0xFF).
Proof.
  destruct JType_fields as (Hop & Hrd).
  destruct JType_imm_decoded as (v & Hv & Hiff).
  unfold encode. decode_unfold.
  rewrite Hop, Hrd, Hv, opcode_j. eval_cond.
  eexists. split; [reflexivity|]. repeat (split; [reflexivity|]). exact Hiff.
Qed.
End JumpRoundTrip.

Lemma JType_roundtrip_witness :
  exists d, decode_instr (encode (J (JType.mk 1 2048 OPCODE_JAL))) = Ok d
    /\ Decoded.type d = "J"
    /\ Decoded.opcode d = JType.opcode (JType.mk 1 2048 OPCODE_JAL)
    /\ Decoded.rd d = JType.rd (JType.mk 1 2048 OPCODE_JAL)
    /\ (Decoded.imm d = JType.imm (JType.mk 1 2048 OPCODE_JAL)
        <-> Z.even (JType.imm (JType.mk 1 2048 OPCODE_JAL)) = true
            /\ Z.land (Z.shiftr (JType.imm (JType.mk 1 2048 OPCODE_JAL)) 12) 0xFF
               = Z.land (JType.imm (JType.mk 1 2048 OPCODE_JAL)) 0xFF).
Proof.
  apply (JType_roundtrip (JType.mk 1 2048 OPCODE_JAL));
    simpl; (lia || reflexivity).
Defined.

(** *** Which words have a mnemonic *)

(** A property checked on every [z] of [[0, n)] holds on the interval. *)
Lemma forallb_seqZ (f : Z -> bool) (n z : Z) :
  forallb f (seqZ 0 n) = true -> 0 <= z < n -> f z = true.
Proof.
  intros Hall Hz. rewrite forallb_forall in Hall. apply Hall.
  apply list_elem_of_In, elem_of_seqZ. lia.
Qed.

Lemma r_type_table (f3 f7 : Z) :
  0 <= f3 < 8 -> 0 <= f7 < 128 ->
  dict_get mnemonic_map (OPCODE_R_TYPE, f3, f7) "UNKNOWN" <> "UNKNOWN"
  <-> f7 = FUNCT7_NORMAL
      \/ (f7 = FUNCT7_ALT /\ (f3 = FUNCT3_ADD_SUB \/ f3 = FUNCT3_SRL_SRA)).
Proof.
  intros H3 H7.
  assert (forallb (fun a => forallb (fun b =>
            Bool.eqb
              (negb (String.eqb
                       (dict_get mnemonic_map (OPCODE_R_TYPE, a, b) "UNKNOWN")
                       "UNKNOWN"))
              ((b =? FUNCT7_NORMAL)
               || ((b =? FUNCT7_ALT)
                   && ((a =? FUNCT3_ADD_SUB) || (a =? FUNCT3_SRL_SRA)))))
            (seqZ 0 128)) (seqZ 0 8) = true) as Hall
    by (vm_compute; reflexivity).
  apply (forallb_seqZ _ _ f3) in Hall; [|done].
  apply (forallb_seqZ _ _ f7) in Hall; [|done].
  apply Bool.eqb_prop in Hall.
  destruct (String.eqb_spec
              (dict_get mnemonic_map (OPCODE_R_TYPE, f3, f7) "UNKNOWN")
              "UNKNOWN") as [Heq|Hne]; simpl in Hall; symmetry in Hall.
  - split; [done|]. intros Hcases. exfalso.
    destruct Hcases as [->|[-> [->| ->]]]; discriminate.
  - split; [|done]. intros _.
    apply orb_prop in Hall as [H|H]; [left; by apply Z.eqb_eq|right].
    apply andb_prop in H as [Ha Hb]. apply Z.eqb_eq in Ha.
    split; [done|]. apply orb_prop in Hb as [Hb|Hb]; apply Z.eqb_eq in Hb; auto.
Qed.

(** X16: a word with the R-type opcode decodes with a mnemonic other than
    "UNKNOWN" exactly when its [funct7] is 0, or is 0b0100000 with [funct3]
    0b000 (SUB) or 0b101 (SRA). *)
Theorem r_type_mnemonic (w : Z) :
  extract_opcode w = OPCODE_R_TYPE ->
  exists d, decode_instr w = Ok d
    /\ Decoded.type d = "R"
    /\ (Decoded.mnemonic d <> "UNKNOWN"
        <-> extract_funct7 w = FUNCT7_NORMAL
            \/ (extract_funct7 w = FUNCT7_ALT
                /\ (extract_funct3 w = FUNCT3_ADD_SUB
                    \/ extract_funct3 w = FUNCT3_SRL_SRA))).
Proof.
  intros Hop.
  destruct (decode_instr_cases w) as (d & Hd & _ & _ & _ & _ & _ & _ & Hm & Hc).
  exists d. split; [done|].
  assert (Decoded.type d = "R") as Hty.
  { destruct Hc as [(_ & Hty & _)|[(Ho & _)|[(Ho & _)|[(Ho & _)|[(Ho & _)|
      [(Ho & _)|(Ho & _)]]]]]]; [done|exfalso; opcode_facts..].
    all: rewrite Hop in Ho; vm_compute in Ho; congruence. }
  split; [done|]. rewrite Hm, Hty, Hop. cbn [String.eqb Ascii.eqb Bool.eqb].
  apply r_type_table.
  - encode_unfold. pose proof (land_ones_range (Z.shiftr w 12) 3). lia.
  - encode_unfold. pose proof (land_ones_range (Z.shiftr w 25) 7). lia.
Qed.

Lemma r_type_mnemonic_witness :
  exists d, decode_instr 0x40208033 = Ok d
    /\ Decoded.type d = "R"
    /\ (Decoded.mnemonic d <> "UNKNOWN"
        <-> extract_funct7 0x40208033 = FUNCT7_NORMAL
            \/ (extract_funct7 0x40208033 = FUNCT7_ALT
                /\ (extract_funct3 0x40208033 = FUNCT3_ADD_SUB
                    \/ extract_funct3 0x40208033 = FUNCT3_SRL_SRA))).
Proof. apply (r_type_mnemonic 0x40208033). reflexivity. Defined.

Lemma upper_jump_table (op f3 : Z) :
  op = OPCODE_LUI \/ op = OPCODE_AUIPC \/ op = OPCODE_JAL ->
  0 <= f3 < 8 ->
  dict_get mnemonic_map (op, f3, 0) "UNKNOWN"
  = if f3 =? 0 then dict_get mnemonic_map (op, 0, 0) "UNKNOWN" else "UNKNOWN".
Proof.
  intros Hop H3.
  assert (f3 = 0 \/ f3 = 1 \/ f3 = 2 \/ f3 = 3 \/ f3 = 4 \/ f3 = 5
          \/ f3 = 6 \/ f3 = 7) as Hcases by lia.
  destruct Hop as [->|[->| ->]];
    repeat (destruct Hcases as [->|Hcases]; [vm_compute; reflexivity|]);
    subst f3; vm_compute; reflexivity.
Qed.

(** X17: a word with the LUI, AUIPC or JAL opcode decodes with the mnemonic of
    its opcode only when its bits 14..12 are zero, and with "UNKNOWN"
    otherwise; these bits are the low three bits of the decoded U-immediate,
    and bits 14..12 of the decoded J-immediate. *)
Theorem upper_jump_mnemonic (w : Z) :
  extract_opcode w = OPCODE_LUI \/ extract_opcode w = OPCODE_AUIPC
  \/ extract_opcode w = OPCODE_JAL ->
  exists d, decode_instr w = Ok d
    /\ Decoded.mnemonic d =
         (if extract_funct3 w =? 0
          then (if extract_opcode w =? OPCODE_LUI then "LUI"
                else if extract_opcode w =? OPCODE_AUIPC then "AUIPC"
                else "JAL")
          else "UNKNOWN")
    /\ extract_funct3 w =
         (if extract_opcode w =? OPCODE_JAL
          then Z.land (Z.shiftr (Decoded.imm d) 12) 0x7
          else Z.land (Decoded.imm d) 0x7).
Proof.
  intros Hop.
  assert (0 <= extract_funct3 w < 8) as H3.
  { encode_unfold. pose proof (land_ones_range (Z.shiftr w 12) 3). lia. }
  destruct (decode_instr_cases w) as (d & Hd & _ & _ & _ & _ & _ & _ & Hm & Hc).
  exists d. split; [done|].
  destruct Hc as [(Ho & _)|[(Ho & _)|[(Ho & _)|[(Ho & _)|[(Ho & Hty & Him)|
    [(Ho & Hty & Him)|(Ho & _)]]]]]].
  1-4, 7: exfalso; destruct Hop as [Hop|[Hop|Hop]]; rewrite Hop in Ho;
    vm_compute in Ho; congruence.
  - assert (extract_opcode w = OPCODE_LUI \/ extract_opcode w = OPCODE_AUIPC)
      as Hu by (by apply u_type_opcodes_inv).
    rewrite Hm, Hty. cbn [String.eqb Ascii.eqb Bool.eqb].
    rewrite upper_jump_table by (done || tauto). split.
    + destruct Hu as [-> | ->]; reflexivity.
    + replace (extract_opcode w =? OPCODE_JAL) with false
        by (destruct Hu as [-> | ->]; reflexivity).
      rewrite Him. encode_unfold. change 0x7 with (Z.ones 3). bits_eq.
  - rewrite Hm, Hty. cbn [String.eqb Ascii.eqb Bool.eqb].
    rewrite upper_jump_table by (done || tauto). split.
    + rewrite Ho. reflexivity.
    + rewrite Ho. change (OPCODE_JAL =? OPCODE_JAL) with true. cbv iota.
      destruct (extract_imm_raw w) as (_ & _ & _ & Hraw). rewrite Hraw in Him.
      destruct (sign_extend_bits (imm_j_raw w) 21) as (v & Hv & _ & Hbits);
        [lia|].
      rewrite Hv in Him. injection Him as <-.
      change 0x7 with (Z.ones 3). apply Z.bits_inj'. intros i Hi.
      rewrite Z.land_spec, Z.shiftr_spec, Z.testbit_ones by lia.
      destruct (Z.ltb_spec i 3) as [Hlt|Hge].
      * rewrite Hbits, Z.min_l by lia. encode_unfold. raw_unfold. bitblast.
      * rewrite andb_false_r. encode_unfold. bitblast.
Qed.

Lemma upper_jump_mnemonic_witness :
  exists d, decode_instr 0x000010B7 = Ok d
    /\ Decoded.mnemonic d =
         (if extract_funct3 0x000010B7 =? 0
          then (if extract_opcode 0x000010B7 =? OPCODE_LUI then "LUI"
                else if extract_opcode 0x000010B7 =? OPCODE_AUIPC then "AUIPC"
                else "JAL")
          else "UNKNOWN")
    /\ extract_funct3 0x000010B7 =
         (if extract_opcode 0x000010B7 =? OPCODE_JAL
          then Z.land (Z.shiftr (Decoded.imm d) 12) 0x7
          else Z.land (Decoded.imm d) 0x7).
Proof. apply (upper_jump_mnemonic 0x000010B7). left. reflexivity. Defined.

(** *** Printing *)

Lemma format_07b_opcode (n : Z) :
  0 <= n < 128 ->
  String.length (PyFormat.format_07b n) = 7%nat
  /\ all_binary (PyFormat.format_07b n) = true
  /\ bin_value (PyFormat.format_07b n) = n.
Proof.
  intros Hn.
  assert (forallb (fun z =>
            Nat.eqb (String.length (PyFormat.format_07b z)) 7
            && all_binary (PyFormat.format_07b z)
            && (bin_value (PyFormat.format_07b z) =? z))
            (seqZ 0 128) = true) as Hall by (vm_compute; reflexivity).
  apply (forallb_seqZ _ _ n) in Hall; [|done].
  apply andb_prop in Hall as [Hall Hval]. apply andb_prop in Hall as [Hlen Hbin].
  apply Nat.eqb_eq in Hlen. apply Z.eqb_eq in Hval. done.
Qed.

(** X18: the string of a decoded record is its mnemonic followed by
    " (opcode=", exactly seven binary digits and ")"; the digits read back
    as the opcode of the word. *)
Theorem decoded_str_format (w : Z) :
  exists d digits, decode_instr w = Ok d
    /\ Decoded__str__ d
       = Decoded.mnemonic d +:+ " (opcode=" +:+ digits +:+ ")"
    /\ String.length digits = 7%nat
    /\ all_binary digits = true
    /\ bin_value digits = extract_opcode w.
Proof.
  destruct (decode_instr_cases w) as (d & Hd & Ho & _).
  exists d, (PyFormat.format_07b (Decoded.opcode d)).
  split; [done|]. split; [reflexivity|]. rewrite Ho.
  apply format_07b_opcode. encode_unfold.
  pose proof (land_ones_range (Z.shiftr w 0) 7). lia.
Qed.

End CodecFacts.

(** ** More on the register file *)

Module RegfileFacts.
Import Constants Isa Regfile RegfileSpec RegfileProofs CodecFacts.

Lemma read_register_init (bw n a : Z) : read_register (init bw n) a = 0.
Proof.
  unfold read_register, Pyrtl.select, Pyrtl.mux, Pyrtl.Const, init. simpl.
  destruct (a =? 0); [done|]. rewrite !list_lookup_fmap.
  by destruct (seqZ 0 n !! Z.to_nat a).
Qed.

(** X19: in a register file started fresh and driven with port values that
    fit their ports, a register that no cycle has written reads 0 on both
    ports. *)
Theorem unwritten_register_reads_zero
    (inps : list Inputs) (a r1 r2 wa wd we : Z) :
  0 <= a < 2 ^ 5 ->
  Forall (in_width (init REG_WIDTH NUM_REGS)) inps ->
  in_width (init REG_WIDTH NUM_REGS) (mkInputs r1 r2 wa wd we) ->
  Forall (fun inp => rd_we inp <> CTRL_REG_WRITE_YES \/ rd_addr inp <> a) inps ->
  rs1_data (step (run (init REG_WIDTH NUM_REGS) inps)
                 (mkInputs a r2 wa wd we)).1 = 0
  /\ rs2_data (step (run (init REG_WIDTH NUM_REGS) inps)
                    (mkInputs r1 a wa wd we)).1 = 0.
Proof.
  intros Ha _ _ Hinps. simpl.
  rewrite read_register_run_other by (done || lia).
  split; apply read_register_init.
Qed.

Lemma unwritten_register_reads_zero_witness :
  rs1_data (step (run (init REG_WIDTH NUM_REGS)
                      [mkInputs 0 0 5 42 1; mkInputs 5 0 7 9 0])
                 (mkInputs 7 0 7 1 1)).1 = 0
  /\ rs2_data (step (run (init REG_WIDTH NUM_REGS)
                         [mkInputs 0 0 5 42 1; mkInputs 5 0 7 9 0])
                    (mkInputs 0 7 7 1 1)).1 = 0.
Proof.
  apply (unwritten_register_reads_zero
           [mkInputs 0 0 5 42 1; mkInputs 5 0 7 9 0] 7 0 0 7 1 1).
  - lia.
  - repeat constructor; simpl; unfold REG_WIDTH; lia.
  - repeat split; simpl; unfold REG_WIDTH; lia.
  - repeat constructor; simpl; unfold CTRL_REG_WRITE_YES; lia.
Defined.

(** X20: on port values that fit their ports, after any sequence of cycles a
    read of an address [a <> 0] returns the data of the last cycle that
    wrote [a] (write enable asserted, [rd_addr = a]), and the value stored
    at the start when no cycle wrote it. *)
Theorem read_returns_last_write
    (self : RegFile) (inps : list Inputs) (a r1 r2 wa wd we : Z) :
  well_formed self -> 0 <= a < 2 ^ 5 -> a <> 0 ->
  Forall (in_width self) inps ->
  in_width self (mkInputs r1 r2 wa wd we) ->
  rs1_data (step (run self inps) (mkInputs a r2 wa wd we)).1
  = default (read_register self a) (last_write a inps)
  /\ rs2_data (step (run self inps) (mkInputs r1 a wa wd we)).1
     = default (read_register self a) (last_write a inps).
Proof.
  intros Hwf Ha Hnz _ _. simpl.
  assert (read_register (run self inps) a
          = default (read_register self a) (last_write a inps)) as Hread;
    [|by rewrite Hread].
  revert self Hwf. induction inps as [|inp inps IH]; intros self Hwf; [done|].
  change (run self (inp :: inps)) with (run (clock_edge self inp) inps).
  rewrite IH by (by apply well_formed_clock_edge). cbn [last_write].
  destruct (last_write a inps) as [v|]; [done|]. cbn [default].
  unfold writes_to.
  destruct (Z.eqb_spec (rd_we inp) CTRL_REG_WRITE_YES) as [Hwe|Hwe];
    [destruct (Z.eqb_spec (rd_addr inp) a) as [Haddr|Haddr]|]; cbn [andb default].
  - apply read_register_clock_edge_written; (done || (unfold NUM_REGS; lia)).
  - apply read_register_clock_edge_other; [lia|by right].
  - apply read_register_clock_edge_other; [lia|by left].
Qed.

Lemma read_returns_last_write_witness :
  rs1_data
    (step (run (init REG_WIDTH NUM_REGS)
               [mkInputs 0 0 5 42 1; mkInputs 5 5 5 43 1; mkInputs 0 0 5 44 0;
                mkInputs 0 0 6 7 1])
          (mkInputs 5 0 5 99 1)).1
  = default (read_register (init REG_WIDTH NUM_REGS) 5)
      (last_write 5
         [mkInputs 0 0 5 42 1; mkInputs 5 5 5 43 1; mkInputs 0 0 5 44 0;
          mkInputs 0 0 6 7 1])
  /\ rs2_data
       (step (run (init REG_WIDTH NUM_REGS)
                  [mkInputs 0 0 5 42 1; mkInputs 5 5 5 43 1;
                   mkInputs 0 0 5 44 0; mkInputs 0 0 6 7 1])
             (mkInputs 0 5 5 99 1)).1
     = default (read_register (init REG_WIDTH NUM_REGS) 5)
         (last_write 5
            [mkInputs 0 0 5 42 1; mkInputs 5 5 5 43 1; mkInputs 0 0 5 44 0;
             mkInputs 0 0 6 7 1]).
Proof.
  apply (read_returns_last_write (init REG_WIDTH NUM_REGS)
           [mkInputs 0 0 5 42 1; mkInputs 5 5 5 43 1; mkInputs 0 0 5 44 0;
            mkInputs 0 0 6 7 1] 5 0 0 5 99 1).
  - split; reflexivity.
  - lia.
  - lia.
  - repeat constructor; simpl; unfold REG_WIDTH; lia.
  - repeat split; simpl; unfold REG_WIDTH; lia.
Defined.

Lemma clock_edge_shape (self : RegFile) (inp : Inputs) :
  Pyrtl.name <$> registers (clock_edge self inp) = Pyrtl.name <$> registers self
  /\ Pyrtl.bitwidth <$> registers (clock_edge self inp)
     = Pyrtl.bitwidth <$> registers self.
Proof.
  split; apply list_eq; intros i; simpl;
    rewrite !list_lookup_fmap, write_register_lookup;
    destruct (registers self !! i) as [r|]; simpl; try done;
    by destruct (_ && _).
Qed.

Lemma run_num_regs (self : RegFile) (inps : list Inputs) :
  num_regs (run self inps) = num_regs self.
Proof.
  revert self. induction inps as [|inp inps IH]; intros self; [done|].
  change (run self (inp :: inps)) with (run (clock_edge self inp) inps).
  by rewrite IH.
Qed.

Lemma run_shape (self : RegFile) (inps : list Inputs) :
  Pyrtl.name <$> registers (run self inps) = Pyrtl.name <$> registers self
  /\ Pyrtl.bitwidth <$> registers (run self inps)
     = Pyrtl.bitwidth <$> registers self.
Proof.
  revert self. induction inps as [|inp inps IH]; intros self; [done|].
  change (run self (inp :: inps)) with (run (clock_edge self inp) inps).
  destruct (IH (clock_edge self inp)) as (-> & ->).
  apply clock_edge_shape.
Qed.

(** X22: the cell of index 0 is never written: after any cycles it is the cell
    it was, and [get_register(0)] returns what it returned before. *)
Theorem zero_cell_never_written (self : RegFile) (inps : list Inputs) :
  registers (run self inps) !! 0%nat = registers self !! 0%nat
  /\ get_register (run self inps) 0 = get_register self 0.
Proof.
  assert (registers (run self inps) !! 0%nat = registers self !! 0%nat) as Hcell.
  { revert self. induction inps as [|inp inps IH]; intros self; [done|].
    change (run self (inp :: inps)) with (run (clock_edge self inp) inps).
    rewrite IH. simpl. rewrite write_register_lookup.
    destruct (registers self !! 0%nat) as [r|]; [simpl|done].
    by rewrite andb_false_r. }
  split; [done|]. unfold get_register.
  rewrite run_num_regs.
  change (Z.to_nat 0) with 0%nat. by rewrite Hcell.
Qed.

Lemma get_register_ok (self : RegFile) (k : Z) :
  well_formed self -> 0 <= k < 2 ^ 5 ->
  exists r, registers self !! Z.to_nat k = Some r /\ get_register self k = Ok r.
Proof.
  intros Hwf Hk. pose proof Hwf as [Hn _]. unfold NUM_REGS in Hn.
  destruct (well_formed_lookup self k Hwf) as [r Hr]; [unfold NUM_REGS; lia|].
  exists r. split; [done|]. unfold get_register. rewrite Hr, Hn.
  destruct (Z.ltb_spec k 0); [lia|]. by destruct (Z.geb_spec k 32); [lia|].
Qed.

Lemma init_lookup (bw n : Z) (i : nat) :
  registers (init bw n) !! i
  = (fun z => Pyrtl.mkReg bw ("x" +:+ pretty z) 0) <$> seqZ 0 n !! i.
Proof. unfold init. cbn [registers]. apply list_lookup_fmap. Qed.

(** X23: a register file started fresh keeps, through any cycles, at every
    index [k] of [0, 31] the cell named [x<k>] of width 32, which
    [get_register(k)] returns; for [k <> 0] the read ports show the value
    that cell holds. *)
Theorem fresh_register_cells (inps : list Inputs) (k : Z) :
  0 <= k <= 31 ->
  exists r, get_register (run (init REG_WIDTH NUM_REGS) inps) k = Ok r
    /\ Pyrtl.name r = "x" +:+ pretty k
    /\ Pyrtl.bitwidth r = REG_WIDTH
    /\ (k <> 0 ->
        read_register (run (init REG_WIDTH NUM_REGS) inps) k = Pyrtl.value r).
Proof.
  intros Hk.
  pose proof (well_formed_run _ inps well_formed_init) as Hwf.
  destruct (get_register_ok _ k Hwf) as (r & Hr & Hget); [lia|].
  destruct (run_shape (init REG_WIDTH NUM_REGS) inps) as [Hnames Hwidths].
  exists r. split; [done|].
  assert (seqZ 0 NUM_REGS !! Z.to_nat k = Some k) as Hseq.
  { rewrite lookup_seqZ_lt by (unfold NUM_REGS; lia). f_equal. lia. }
  repeat split.
  - assert ((Pyrtl.name <$> registers (run (init REG_WIDTH NUM_REGS) inps))
              !! Z.to_nat k = Some (Pyrtl.name r)) as Hn
      by (by rewrite list_lookup_fmap, Hr).
    rewrite Hnames, list_lookup_fmap, init_lookup, Hseq in Hn.
    simpl in Hn. congruence.
  - assert ((Pyrtl.bitwidth <$> registers (run (init REG_WIDTH NUM_REGS) inps))
              !! Z.to_nat k = Some (Pyrtl.bitwidth r)) as Hb
      by (by rewrite list_lookup_fmap, Hr).
    rewrite Hwidths, list_lookup_fmap, init_lookup, Hseq in Hb.
    simpl in Hb. congruence.
  - intros Hnz. apply read_register_cell; (done || lia).
Qed.

Lemma fresh_register_cells_witness :
  exists r,
    get_register (run (init REG_WIDTH NUM_REGS) [mkInputs 0 0 7 99 1]) 7 = Ok r
    /\ Pyrtl.name r = "x" +:+ pretty 7
    /\ Pyrtl.bitwidth r = REG_WIDTH
    /\ (7 <> 0 ->
        read_register (run (init REG_WIDTH NUM_REGS) [mkInputs 0 0 7 99 1]) 7
        = Pyrtl.value r).
Proof. apply (fresh_register_cells [mkInputs 0 0 7 99 1] 7). lia. Defined.

Lemma clock_edge_values_in_range (self : RegFile) (inp : Inputs) (n : Z) :
  Forall (fun r => 0 <= Pyrtl.value r < 2 ^ n) (registers self) ->
  0 <= rd_data inp < 2 ^ n ->
  Forall (fun r => 0 <= Pyrtl.value r < 2 ^ n)
         (registers (clock_edge self inp)).
Proof.
  intros Hcells Hdata. apply Forall_lookup. intros i r' Hr'.
  simpl in Hr'. rewrite write_register_lookup in Hr'.
  destruct (registers self !! i) as [r|] eqn:Hr; [|done].
  simpl in Hr'. injection Hr' as <-.
  pose proof (proj1 (Forall_lookup _ _) Hcells i r Hr) as Hrange.
  by destruct (_ && _).
Qed.

(** X24: if every cell holds a value of [n] bits and every cycle presents
    [n]-bit write data, then after the cycles every cell still holds a value
    of [n] bits, and so does a read of any address. *)
Theorem register_values_in_range
    (self : RegFile) (inps : list Inputs) (n a : Z) :
  0 <= n ->
  Forall (fun r => 0 <= Pyrtl.value r < 2 ^ n) (registers self) ->
  Forall (fun inp => 0 <= rd_data inp < 2 ^ n) inps ->
  Forall (fun r => 0 <= Pyrtl.value r < 2 ^ n) (registers (run self inps))
  /\ 0 <= read_register (run self inps) a < 2 ^ n.
Proof.
  intros Hn Hcells Hinps.
  assert (Forall (fun r => 0 <= Pyrtl.value r < 2 ^ n)
                 (registers (run self inps))) as Hafter.
  { revert self Hcells.
    induction Hinps as [|inp inps Hdata _ IH]; intros self Hcells; [done|].
    change (run self (inp :: inps)) with (run (clock_edge self inp) inps).
    apply IH. by apply clock_edge_values_in_range. }
  split; [done|].
  pose proof (Z.pow_pos_nonneg 2 n) as Hpow.
  unfold read_register, Pyrtl.select, Pyrtl.mux, Pyrtl.Const.
  destruct (a =? 0); [lia|]. rewrite list_lookup_fmap.
  destruct (registers (run self inps) !! Z.to_nat a) as [r|] eqn:Hr;
    simpl; [|lia].
  exact (proj1 (Forall_lookup _ _) Hafter _ r Hr).
Qed.

Lemma register_values_in_range_witness :
  Forall (fun r => 0 <= Pyrtl.value r < 2 ^ 32)
         (registers (run (init REG_WIDTH NUM_REGS)
                         [mkInputs 0 0 5 0xFFFFFFFF 1; mkInputs 5 0 6 7 1]))
  /\ 0 <= read_register
            (run (init REG_WIDTH NUM_REGS)
                 [mkInputs 0 0 5 0xFFFFFFFF 1; mkInputs 5 0 6 7 1]) 5
     < 2 ^ 32.
Proof.
  apply (register_values_in_range (init REG_WIDTH NUM_REGS)
           [mkInputs 0 0 5 0xFFFFFFFF 1; mkInputs 5 0 6 7 1] 32 5).
  - lia.
  - repeat constructor; simpl; lia.
  - repeat constructor; simpl; lia.
Defined.

(** X25: the register indices of a decoded record are always accepted by
    [get_register] on a register file of 32 registers: [rd], [rs1] and
    [rs2] each select a cell. *)
Theorem decoded_registers_accepted (self : RegFile) (w : Z) :
  well_formed self ->
  exists d r_rd r_rs1 r_rs2, decode_instr w = Ok d
    /\ get_register self (Decoded.rd d) = Ok r_rd
    /\ get_register self (Decoded.rs1 d) = Ok r_rs1
    /\ get_register self (Decoded.rs2 d) = Ok r_rs2.
Proof.
  intros Hwf.
  destruct (decode_instr_cases w) as (d & Hd & _ & Hrd & Hrs1 & Hrs2 & _).
  destruct (get_register_ok self (Decoded.rd d) Hwf) as (r1 & _ & H1).
  { rewrite Hrd. unfold extract_rd. change RD_MASK with (Z.ones 5).
    apply land_ones_range. lia. }
  destruct (get_register_ok self (Decoded.rs1 d) Hwf) as (r2 & _ & H2).
  { rewrite Hrs1. unfold extract_rs1. change RS1_MASK with (Z.ones 5).
    apply land_ones_range. lia. }
  destruct (get_register_ok self (Decoded.rs2 d) Hwf) as (r3 & _ & H3).
  { rewrite Hrs2. unfold extract_rs2. change RS2_MASK with (Z.ones 5).
    apply land_ones_range. lia. }
  by exists d, r1, r2, r3.
Qed.

Lemma decoded_registers_accepted_witness :
  exists d r_rd r_rs1 r_rs2, decode_instr 0xFFFFFFFF = Ok d
    /\ get_register (init REG_WIDTH NUM_REGS) (Decoded.rd d) = Ok r_rd
    /\ get_register (init REG_WIDTH NUM_REGS) (Decoded.rs1 d) = Ok r_rs1
    /\ get_register (init REG_WIDTH NUM_REGS) (Decoded.rs2 d) = Ok r_rs2.
Proof.
  apply (decoded_registers_accepted (init REG_WIDTH NUM_REGS) 0xFFFFFFFF).
  split; reflexivity.
Defined.

End RegfileFacts.
